(** * claude-progress-monitor: a shallow embedding of [src/progress.py] and
    [src/monitor.py], and the properties of its specification.

    Conventions of the embedding.

    - A Python [int] is a [Z].  A Python [float] is modelled by the rational
      number it stands for ([Q]) and float arithmetic by exact arithmetic:
      rounding to binary64 is not part of the model.  Where a float is
      truncated to an integer, rounding can change the integer; module
      [Binary64] evaluates the cell count of [ProgressBar.render], whose
      arguments are integers, in binary64 itself and compares.
    - A naive [datetime] is the number of microseconds since an arbitrary
      epoch and a [timedelta] a number of microseconds, both in [Z]
      (Python keeps both as exact integers); the finite range of [datetime]
      is not part of the model.
    - A Python [str] that is measured in characters is a list of code points.
    - Code that can raise returns an [outcome]; [Raise e] is an exception
      leaving the function.
    - A [SubagentTask] is an object in a store, reached through references:
      the registry of the monitor and the call that created the task share
      it.
    - The clock is an input: every operation takes the readings of
      [time.time()] and [datetime.utcnow()] it asks for.
    - A call of [spawn_with_monitoring] runs without interleaving from one
      [await asyncio.sleep(5)] to the next, so each such stretch is one
      step; cancelling the asyncio task itself is not modelled.
    - [print] and [logger] calls are left out.  A callback is an opaque
      function of the caller: its call is recorded as an event, and what it
      does when called is not part of the model. *)

From Stdlib Require Import ZArith QArith Qround Lia Floats.
From stdpp Require Import base option gmap strings list pretty.

(** ** Python values and exceptions *)

Abbreviation datetime := Z.
Abbreviation timedelta := Z.

Inductive exn : Type :=
  | IndexError
  | ZeroDivisionError
  | AsyncioTimeoutError   (* asyncio.TimeoutError *)
  | TimeoutError          (* exceptions.TimeoutError *)
  | SubagentError.        (* exceptions.SubagentError *)

Inductive outcome (A : Type) : Type :=
  | Return (a : A)
  | Raise (e : exn).
Arguments Return {A} a.
Arguments Raise {A} e.

#[global] Instance outcome_ret : MRet outcome := fun _ a => Return a.
#[global] Instance outcome_bind : MBind outcome := fun _ _ k c =>
  match c with
  | Return a => k a
  | Raise e => Raise e
  end.

#[global] Instance exn_eq_dec : EqDecision exn.
Proof. solve_decision. Defined.

(** [int(x)] on a float: truncation towards zero. *)
Definition py_int (x : Q) : Z := Z.quot (Qnum x) (Zpos (Qden x)).

(** [a / b] with a divisor that is not a literal. *)
Definition py_truediv (a b : Q) : outcome Q :=
  if Qeq_bool b 0 then Raise ZeroDivisionError else Return (a / b)%Q.

(** [l[i]], negative indices counting from the end. *)
Definition py_index {A : Type} (l : list A) (i : Z) : outcome A :=
  let n := Z.of_nat (length l) in
  let j := if (i <? 0)%Z then (n + i)%Z else i in
  if (j <? 0)%Z then Raise IndexError
  else match l !! Z.to_nat j with
       | Some a => Return a
       | None => Raise IndexError
       end.

(** [td.total_seconds()]. *)
Definition total_seconds (td : timedelta) : Q := (inject_Z td / 1000000)%Q.

(** Rounding to the nearest integer, ties to the even one: how [timedelta]
    turns a fractional number of microseconds into a whole one. *)
Definition round_half_even (x : Q) : Z :=
  let f := Qfloor x in
  match ((x - inject_Z f) ?= 1 # 2)%Q with
  | Lt => f
  | Gt => (f + 1)%Z
  | Eq => if Z.even f then f else (f + 1)%Z
  end.

(** [timedelta(minutes=m)]. *)
Definition timedelta_minutes (m : Q) : timedelta :=
  round_half_even (m * 60000000)%Q.

(** ** [progress.py]: class [ProgressBar] *)

Module ProgressBar.

(** The two glyphs of a bar: U+25B0 and U+25B1. *)
Definition glyph_filled : N := 9648.
Definition glyph_empty : N := 9649.

Record t : Type := { percentage : Z; width : Z }.

(** [s * n] on strings: the empty string when [n <= 0]. *)
Definition str_mul (c : N) (n : Z) : list N := replicate (Z.to_nat n) c.

Definition __init__ (percentage width : Z) : t :=
  {| percentage := Z.max 0 (Z.min 100 percentage); width := width |}.

Definition render (self : t) : list N :=
  let filled := py_int (inject_Z self.(percentage) / 100 * inject_Z self.(width))%Q in
  let empty := (self.(width) - filled)%Z in
  str_mul glyph_filled filled ++ str_mul glyph_empty empty.

(** An ASCII string as a Python [str]. *)
Definition str_of_string (s : string) : list N :=
  (fun a => Ascii.N_of_ascii a) <$> String.list_ascii_of_string s.

(** [f"{self.render()} {self.percentage}%"]. *)
Definition __str__ (self : t) : list N :=
  render self ++ str_of_string (" " +:+ pretty self.(percentage) +:+ "%").

End ProgressBar.

(** ** The cell count of [render] in binary64

    [render] computes its number of filled cells as
    [int(percentage / 100 * width)], from integers through floats back to
    an integer.  This module evaluates that expression in IEEE binary64,
    the arithmetic of a Python [float], to delimit where the exact
    arithmetic of the embedding gives the very number the program
    computes. *)

Module Binary64.

(** [float(z)]: the binary64 number nearest to [z]. *)
Definition float_of_int (z : Z) : float :=
  SF2Prim (binary_normalize prec emax z 0 false).

(** [int(x)] on a finite binary64 number. *)
Definition int_of_float (x : float) : Z :=
  match Prim2SF x with
  | S754_finite s m e =>
      let a := if (0 <=? e)%Z then (Zpos m * 2 ^ e)%Z
               else (Zpos m / 2 ^ (- e))%Z in
      if s then (- a)%Z else a
  | _ => 0%Z
  end.

(** [int(percentage / 100 * width)]. *)
Definition filled (percentage width : Z) : Z :=
  int_of_float
    (float_of_int percentage / float_of_int 100 * float_of_int width)%float.

(** The same count in the exact arithmetic of the embedding. *)
Definition filled_exact (percentage width : Z) : Z :=
  py_int (inject_Z percentage / 100 * inject_Z width)%Q.

(** The two counts agree. *)
Definition agree (c w : nat) : bool :=
  (filled (Z.of_nat c) (Z.of_nat w)
   =? filled_exact (Z.of_nat c) (Z.of_nat w))%Z.

(** The binary64 count is the exact count or one less. *)
Definition within_one (c w : nat) : bool :=
  let a := filled (Z.of_nat c) (Z.of_nat w) in
  let b := filled_exact (Z.of_nat c) (Z.of_nat w) in
  ((b - 1 <=? a) && (a <=? b))%Z.

(** The binary64 count is a number of cells of the bar. *)
Definition in_bar (c w : nat) : bool :=
  let a := filled (Z.of_nat c) (Z.of_nat w) in
  ((0 <=? a) && (a <=? Z.of_nat w))%Z.

(** A test of the percentages 0 to 100 at every width below [n]. *)
Definition checked_below (P : nat -> nat -> bool) (n : nat) : bool :=
  forallb (fun w => forallb (fun c => P c w) (seq 0 101)) (seq 0 n).

End Binary64.

(** ** [progress.py]: class [ProgressTracker] *)

Module ProgressTracker.

(** One entry of [updates[task_id]]: the dict
    [{'percentage': ..., 'timestamp': ...}]. *)
Record update : Type := { percentage : Z; timestamp : datetime }.

Record t : Type := { updates : gmap string (list update) }.

Definition __init__ : t := {| updates := ∅ |}.

(** [utcnow] is what [datetime.utcnow()] answers when it is asked. *)
Definition add_update (self : t) (task_id : string) (percentage : Z)
    (timestamp : option datetime) (utcnow : datetime) : t :=
  let updates1 :=
    match self.(updates) !! task_id with
    | None => <[task_id := []]> self.(updates)
    | Some _ => self.(updates)
    end in
  {| updates :=
       alter (fun l => l ++ [ {| percentage := percentage;
                                 timestamp := default utcnow timestamp |} ])
             task_id updates1 |}.

Definition get_progress_rate (self : t) (task_id : string) : outcome Q :=
  match self.(updates) !! task_id with
  | None => Return 0%Q
  | Some ups =>
      if (length ups <? 2)%nat then Return 0%Q
      else
        first ← py_index ups 0;
        last ← py_index ups (-1);
        let time_diff :=
          (total_seconds (last.(timestamp) - first.(timestamp)) / 60)%Q in
        let progress_diff := (last.(percentage) - first.(percentage))%Z in
        if Qeq_bool time_diff 0 then Return 0%Q
        else py_truediv (inject_Z progress_diff) time_diff
  end.

Definition estimate_completion (self : t) (task_id : string)
    : outcome (option datetime) :=
  match self.(updates) !! task_id with
  | None => Return None
  | Some ups =>
      rate ← get_progress_rate self task_id;
      if Qle_bool rate 0 then Return None
      else
        last ← py_index ups (-1);
        let current_progress := last.(percentage) in
        let remaining := (100 - current_progress)%Z in
        minutes_remaining ← py_truediv (inject_Z remaining) rate;
        Return (Some (last.(timestamp) + timedelta_minutes minutes_remaining)%Z)
  end.

(** The samples recorded for an id, oldest first; none for an unknown id. *)
Definition samples (self : t) (task_id : string) : list update :=
  default [] (self.(updates) !! task_id).

(** The number of minutes from one datetime to another. *)
Definition minutes_between (t1 t2 : datetime) : Q :=
  (inject_Z (t2 - t1) / 60000000)%Q.

(** The rate as a function of the list of samples of an id. *)
Definition rate_of (l : list update) : Q :=
  match l with
  | first :: _ :: _ =>
      match last l with
      | Some lst =>
          if decide (timestamp lst = timestamp first) then 0%Q
          else (inject_Z (percentage lst - percentage first)
                / (total_seconds (timestamp lst - timestamp first) / 60))%Q
      | None => 0%Q
      end
  | _ => 0%Q
  end.

(** The estimate as a function of the list of samples of an id. *)
Definition estimate_of (l : list update) : option datetime :=
  let rate := rate_of l in
  match last l with
  | Some lst =>
      if Qle_bool rate 0 then None
      else Some (timestamp lst
                 + timedelta_minutes (inject_Z (100 - percentage lst) / rate))%Z
  | None => None
  end.



(** One call of [add_update]: the id, the percentage, the timestamp given
    (if any) and the reading of the clock. *)
Record call : Type := {
  call_id : string;
  call_percentage : Z;
  call_timestamp : option datetime;
  call_utcnow : datetime
}.

Definition add_call (self : t) (c : call) : t :=
  add_update self c.(call_id) c.(call_percentage) c.(call_timestamp)
             c.(call_utcnow).

(** The tracker after a sequence of calls of [add_update] on a new
    [ProgressTracker()]. *)
Definition after (calls : list call) : t := foldl add_call __init__ calls.

(** The sample a call records. *)
Definition sample_of (c : call) : update :=
  {| percentage := c.(call_percentage);
     timestamp := default c.(call_utcnow) c.(call_timestamp) |}.

(** The calls of a sequence that are for a given id. *)
Definition calls_for (task_id : string) (calls : list call) : list call :=
  filter (fun c => c.(call_id) = task_id) calls.


End ProgressTracker.

(** ** [monitor.py]: class [SubagentTask] *)

(** The values the [status] field takes: the strings ["running"],
    ["completed"], ["failed"], ["timeout"] and ["killed"]. *)
Inductive Status : Type := Running | Completed | Failed | Timeout | Killed.

#[global] Instance Status_eq_dec : EqDecision Status.
Proof. solve_decision. Defined.

Definition status_str (s : Status) : string :=
  match s with
  | Running => "running"
  | Completed => "completed"
  | Failed => "failed"
  | Timeout => "timeout"
  | Killed => "killed"
  end.


Record SubagentTask : Type := {
  task_id : string;
  description : string;
  start_time : datetime;
  timeout : Z;                (* seconds *)
  tools : list string;
  status : Status;
  progress : Z;
  last_update : datetime;
  check_interval : Z;
  next_check : datetime
}.

(** Assignments to the fields the monitor writes. *)
Definition set_status (s : Status) (t : SubagentTask) : SubagentTask :=
  {| task_id := t.(task_id); description := t.(description);
     start_time := t.(start_time); timeout := t.(timeout); tools := t.(tools);
     status := s; progress := t.(progress); last_update := t.(last_update);
     check_interval := t.(check_interval); next_check := t.(next_check) |}.

Definition set_progress (p : Z) (t : SubagentTask) : SubagentTask :=
  {| task_id := t.(task_id); description := t.(description);
     start_time := t.(start_time); timeout := t.(timeout); tools := t.(tools);
     status := t.(status); progress := p; last_update := t.(last_update);
     check_interval := t.(check_interval); next_check := t.(next_check) |}.

Definition set_last_update (d : datetime) (t : SubagentTask) : SubagentTask :=
  {| task_id := t.(task_id); description := t.(description);
     start_time := t.(start_time); timeout := t.(timeout); tools := t.(tools);
     status := t.(status); progress := t.(progress); last_update := d;
     check_interval := t.(check_interval); next_check := t.(next_check) |}.

(** ** [monitor.py]: class [Monitor] *)

Module Monitor.

(** A [SubagentTask] is a mutable object shared between the registry
    [active_tasks] and the call of [spawn_with_monitoring] that created it:
    both hold a reference into the object store. *)
Abbreviation ref := nat.

Record t : Type := {
  update_interval : Z;
  timeout_threshold : Z;
  active_tasks : gmap string ref;
  progress_tracker : ProgressTracker.t;
  _running : bool
}.

Definition __init__ (update_interval timeout_threshold : Z) : t :=
  {| update_interval := update_interval;
     timeout_threshold := timeout_threshold;
     active_tasks := ∅;
     progress_tracker := ProgressTracker.__init__;
     _running := false |}.

Definition set_active_tasks (m : gmap string ref) (self : t) : t :=
  {| update_interval := self.(update_interval);
     timeout_threshold := self.(timeout_threshold);
     active_tasks := m;
     progress_tracker := self.(progress_tracker);
     _running := self.(_running) |}.

(** The dict [_execute_with_monitoring] returns:
    [{"status": "success", "task_id": ..., "result": "Task completed"}]. *)
Record result : Type := {
  result_status : string;
  result_task_id : string;
  result_result : string
}.

(** What the caller of the monitor observes: the calls of its callbacks
    and how its call of [spawn_with_monitoring] ends. *)
Inductive event : Type :=
  | on_progress_call (task_id : string) (percentage : Z)
  | on_complete_call (task_id : string) (res : result)
  | on_error_call (task_id : string) (e : exn)
  | call_returned (res : result)
  | call_raised (e : exn).

(** The locals of a call of [spawn_with_monitoring] that is suspended in
    the [asyncio.sleep(5)] of [_execute_with_monitoring].  A callback is
    an opaque function of the caller: the frame records whether it was
    given. *)
Record frame : Type := {
  f_task_id : string;
  f_timeout : Z;
  on_progress : bool;
  on_complete : bool;
  on_error : bool;
  f_start_time : Q;       (* [start_time = time.time()] *)
  f_last_update : Q       (* [last_update] of the loop *)
}.

Definition set_f_last_update (x : Q) (f : frame) : frame :=
  {| f_task_id := f.(f_task_id); f_timeout := f.(f_timeout);
     on_progress := f.(on_progress); on_complete := f.(on_complete);
     on_error := f.(on_error); f_start_time := f.(f_start_time);
     f_last_update := x |}.

(** The clock readings of one pass through the loop body, in the order
    the body asks for them. *)
Record tick : Type := {
  time_elapsed : Q;       (* [time.time()] in [elapsed = ...] *)
  utcnow_update : datetime; (* [datetime.utcnow()] for [task.last_update] *)
  time_interval : Q;      (* [time.time()] in the interval test *)
  time_reset : Q          (* [time.time()] in [last_update = ...] *)
}.

(** The clock readings of [spawn_with_monitoring] before the loop. *)
Record spawn_clock : Type := {
  time_id : Q;              (* [time.time()] of the generated id *)
  utcnow_start : datetime;  (* [start_time=datetime.utcnow()] *)
  utcnow_last_update : datetime;  (* default of [last_update] *)
  utcnow_next_check : datetime;   (* default of [next_check] *)
  time_start : Q            (* [start_time = time.time()] of the loop *)
}.

(** The whole state: the object store, the monitor, the suspended calls
    (keyed by the task object each one created) and what has been observed
    so far, each event with the task object of the call it belongs to. *)
Record world : Type := {
  heap : gmap ref SubagentTask;
  next_ref : ref;
  monitor : t;
  frames : gmap ref frame;
  trace : list (ref * event)
}.

Definition init (update_interval timeout_threshold : Z) : world :=
  {| heap := ∅; next_ref := 0;
     monitor := __init__ update_interval timeout_threshold;
     frames := ∅; trace := [] |}.

Definition _send_progress_update (task : SubagentTask) (on_progress : bool)
    : list event :=
  let progress_bar := ProgressBar.__init__ task.(progress) 10 in
  let bar_display := ProgressBar.render progress_bar in
  if on_progress then [on_progress_call task.(task_id) task.(progress)]
  else [].

(** One pass through the body of [while True] in
    [_execute_with_monitoring].  [Return (task, frame, events, None)] is a
    pass that reaches [await asyncio.sleep(5)]; [Some res] is
    [return res].  Both [raise]s come before the first assignment to the
    task, so an exception leaves task and frame as they were. *)
Definition loop_body (self : t) (task : SubagentTask) (f : frame) (tk : tick)
    : outcome (SubagentTask * frame * list event * option result) :=
  let elapsed := (tk.(time_elapsed) - f.(f_start_time))%Q in
  if negb (Qle_bool elapsed (inject_Z task.(timeout))) then
    Raise AsyncioTimeoutError
  else
    ratio ← py_truediv elapsed (inject_Z task.(timeout));
    let task := set_progress (Z.min 100 (py_int (ratio * 100 * 2)%Q)) task in
    let task := set_last_update tk.(utcnow_update) task in
    let '(evs, f) :=
      if Qle_bool (inject_Z self.(update_interval))
                  (tk.(time_interval) - f.(f_last_update))%Q
      then (_send_progress_update task f.(on_progress),
            set_f_last_update tk.(time_reset) f)
      else ([], f) in
    if (100 <=? task.(progress))%Z then
      Return (task, f, evs,
              Some {| result_status := "success";
                      result_task_id := task.(task_id);
                      result_result := "Task completed" |})
    else Return (task, f, evs, None).

Definition tag (r : ref) (evs : list event) : list (ref * event) :=
  (fun e => (r, e)) <$> evs.

(** The end of a call of [spawn_with_monitoring] for the task object [r]:
    the object gets its last value, the events of the pass are appended,
    the call is no longer suspended, and the [finally] clause deletes the
    registry entry of the call's [task_id], if there is one. *)
Definition finish (w : world) (r : ref) (f : frame) (task : SubagentTask)
    (evs : list event) : world :=
  {| heap := <[r := task]> w.(heap);
     next_ref := w.(next_ref);
     monitor :=
       set_active_tasks (delete f.(f_task_id) w.(monitor).(active_tasks))
                        w.(monitor);
     frames := delete r w.(frames);
     trace := w.(trace) ++ tag r evs |}.

(** The call of [spawn_with_monitoring] that owns the task object [r] runs
    from where it stands (the top of the loop body) to its next
    [await asyncio.sleep(5)] or to its end, through the [try] statement of
    [spawn_with_monitoring]. *)
Definition drive (w : world) (r : ref) (f : frame) (tk : tick) : world :=
  match w.(heap) !! r with
  | None => w
  | Some task =>
      match loop_body w.(monitor) task f tk with
      | Return (task, f, evs, None) =>
          {| heap := <[r := task]> w.(heap);
             next_ref := w.(next_ref);
             monitor := w.(monitor);
             frames := <[r := f]> w.(frames);
             trace := w.(trace) ++ tag r evs |}
      | Return (task, f, evs, Some res) =>
          let task := set_status Completed task in
          let task := set_progress 100 task in
          finish w r f task
            (evs
             ++ (if f.(on_complete)
                 then [on_complete_call f.(f_task_id) res] else [])
             ++ [call_returned res])
      | Raise AsyncioTimeoutError =>
          let task := set_status Timeout task in
          finish w r f task
            ((if f.(on_error)
              then [on_error_call f.(f_task_id) TimeoutError] else [])
             ++ [call_raised TimeoutError])
      | Raise e =>
          let task := set_status Failed task in
          finish w r f task
            ((if f.(on_error)
              then [on_error_call f.(f_task_id) e] else [])
             ++ [call_raised SubagentError])
      end
  end.

(** [task_id or f"task_{int(time.time())}"]. *)
Definition task_id_or (task_id : option string) (now : Q) : string :=
  match task_id with
  | Some s => if decide (s = "") then "task_" +:+ pretty (py_int now) else s
  | None => "task_" +:+ pretty (py_int now)
  end.

(** [spawn_with_monitoring], up to the first [await asyncio.sleep(5)] of
    the loop or, when the first pass through the loop body already ends
    the call, to the end. *)
Definition spawn_with_monitoring (w : world) (task : string)
    (tools : list string) (timeout : Z) (task_id : option string)
    (on_progress on_complete on_error : bool)
    (ck : spawn_clock) (tk : tick) : world :=
  let task_id := task_id_or task_id ck.(time_id) in
  let subagent_task :=
    {| task_id := task_id;
       description := task;
       start_time := ck.(utcnow_start);
       timeout := timeout;
       tools := tools;
       status := Running;
       progress := 0;
       last_update := ck.(utcnow_last_update);
       check_interval := 60;
       next_check := (ck.(utcnow_next_check) + 60000000)%Z |} in
  let r := w.(next_ref) in
  let w :=
    {| heap := <[r := subagent_task]> w.(heap);
       next_ref := S r;
       monitor :=
         set_active_tasks (<[task_id := r]> w.(monitor).(active_tasks))
                          w.(monitor);
       frames := w.(frames);
       trace := w.(trace) |} in
  let f :=
    {| f_task_id := task_id; f_timeout := timeout;
       on_progress := on_progress; on_complete := on_complete;
       on_error := on_error;
       f_start_time := ck.(time_start);
       f_last_update := ck.(time_start) |} in
  drive w r f tk.

(** The event loop wakes the call that owns [r] from its
    [asyncio.sleep(5)]; nothing happens when no such call is suspended. *)
Definition resume (w : world) (r : ref) (tk : tick) : world :=
  match w.(frames) !! r with
  | Some f => drive w r f tk
  | None => w
  end.

Definition kill_task (w : world) (task_id : string) : world * bool :=
  match w.(monitor).(active_tasks) !! task_id with
  | None => (w, false)
  | Some r =>
      ({| heap := alter (set_status Killed) r w.(heap);
          next_ref := w.(next_ref);
          monitor := w.(monitor);
          frames := w.(frames);
          trace := w.(trace) |}, true)
  end.

(** One dict of the list [list_active_tasks] returns. *)
Record snapshot : Type := {
  snap_task_id : string;
  snap_status : Status;
  snap_progress : Z;
  snap_elapsed : Z
}.

Definition snapshot_of (utcnow : datetime) (task : SubagentTask) : snapshot :=
  {| snap_task_id := task.(task_id);
     snap_status := task.(status);
     snap_progress := task.(progress);
     snap_elapsed := py_int (total_seconds (utcnow - task.(start_time))) |}.

(** The task objects of the registry, [self.active_tasks.values()].  The
    order of a Python dict is the order of insertion; here it is the order
    of the keys, and nothing below depends on it. *)
Definition active_refs (w : world) : list ref :=
  (map_to_list w.(monitor).(active_tasks)).*2.

(** [utcnow i] is the reading of [datetime.utcnow()] for the [i]-th task
    of the comprehension. *)
Definition list_active_tasks (w : world) (utcnow : nat -> datetime)
    : list snapshot :=
  omap (fun '(i, r) => snapshot_of (utcnow i) <$> w.(heap) !! r)
       (imap pair (active_refs w)).

(** The operations on a monitor, each with the clock readings it uses.
    Between two suspensions a call runs without interleaving, so each
    operation is one step. *)
Inductive op : Type :=
  | Spawn (task : string) (tools : list string) (timeout : Z)
          (task_id : option string)
          (on_progress on_complete on_error : bool)
          (ck : spawn_clock) (tk : tick)
  | Resume (r : ref) (tk : tick)
  | Kill (task_id : string)
  | ListActive (utcnow : nat -> datetime).

Definition step (w : world) (o : op) : world :=
  match o with
  | Spawn task tools timeout task_id on_progress on_complete on_error ck tk =>
      spawn_with_monitoring w task tools timeout task_id
                            on_progress on_complete on_error ck tk
  | Resume r tk => resume w r tk
  | Kill task_id => (kill_task w task_id).1
  | ListActive _ => w
  end.

Definition run (w : world) (ops : list op) : world := foldl step w ops.

(** The worlds a monitor created with [Monitor(update_interval,
    timeout_threshold)] can be in. *)
Inductive reachable : world -> Prop :=
  | reachable_init ui tt : reachable (init ui tt)
  | reachable_step w o : reachable w -> reachable (step w o).

(** A pass through the loop body during which every clock reads [x]
    seconds ([datetime.utcnow()] the same instant in microseconds). *)
Definition tick_at (x : Z) : tick :=
  {| time_elapsed := inject_Z x; utcnow_update := (x * 1000000)%Z;
     time_interval := inject_Z x; time_reset := inject_Z x |}.

Definition clock_at (x : Z) : spawn_clock :=
  {| time_id := inject_Z x; utcnow_start := (x * 1000000)%Z;
     utcnow_last_update := (x * 1000000)%Z;
     utcnow_next_check := (x * 1000000)%Z; time_start := inject_Z x |}.

(** The passes of the call that owns [r] at 5 seconds times [first],
    [first + 1], ..., one per [asyncio.sleep(5)]. *)
Definition polls (r : ref) (first count : nat) : list op :=
  (fun k => Resume r (tick_at (5 * Z.of_nat k))) <$> seq first count.

(** The events that end a call of [spawn_with_monitoring]: the completion
    and error callbacks, and the return or the exception of the call. *)
Definition terminal_event (e : event) : bool :=
  match e with
  | on_progress_call _ _ => false
  | _ => true
  end.

(** What holds of every world a monitor can be in: an entry of the registry
    belongs to a suspended call with that task id; the task object of a
    suspended call exists and its status is ["running"] or ["killed"]; a
    call that has emitted a terminal event is no longer suspended. *)
Record consistent (w : world) : Prop := {
  registry_suspended :
    forall (id : string) (r : ref),
      w.(monitor).(active_tasks) !! id = Some r ->
      exists f, w.(frames) !! r = Some f /\ f.(f_task_id) = id;
  suspended_status :
    forall (r : ref) (f : frame),
      w.(frames) !! r = Some f ->
      (r < w.(next_ref))%nat /\
      exists task, w.(heap) !! r = Some task /\
                   (task.(status) = Running \/ task.(status) = Killed);
  terminal_ended :
    forall (r : ref) (e : event),
      (r, e) ∈ w.(trace) -> terminal_event e = true ->
      (r < w.(next_ref))%nat /\ w.(frames) !! r = None
}.

(** The dict [check_task] returns. *)
Record task_info : Type := {
  info_task_id : string;
  info_status : Status;
  info_progress : Z;
  info_elapsed : Z;
  info_description : string
}.

Definition info_of (utcnow : datetime) (task : SubagentTask) : task_info :=
  {| info_task_id := task.(task_id);
     info_status := task.(status);
     info_progress := task.(progress);
     info_elapsed := py_int (total_seconds (utcnow - task.(start_time)));
     info_description := task.(description) |}.

(** [check_task]; [None] is the [None] of the source.  (A reference of the
    registry always leads to an object: the second [None] is never
    reached from a world the monitor can be in.) *)
Definition check_task (w : world) (task_id : string) (utcnow : datetime)
    : option task_info :=
  match w.(monitor).(active_tasks) !! task_id with
  | None => None
  | Some r =>
      match w.(heap) !! r with
      | None => None
      | Some task => Some (info_of utcnow task)
      end
  end.

(** The events a call has produced, oldest first. *)
Definition events_of (r : ref) (tr : list (ref * event)) : list event :=
  (filter (fun x => x.1 = r) tr).*2.

(** How the events of a call end once the call is over: the completion
    callback, if one was given, and the return of the result it was called
    with; or the error callback, if one was given, and the exception. *)
Inductive ending : list event -> Prop :=
  | ending_completed id res :
      ending [on_complete_call id res; call_returned res]
  | ending_returned res : ending [call_returned res]
  | ending_errored id e e' : ending [on_error_call id e; call_raised e']
  | ending_raised e' : ending [call_raised e'].

(** What holds of the trace and of the task objects of every world a
    monitor can be in: a call that has not begun has no event and no
    object; a call in its polling loop has called only [on_progress], and
    its task is below 100 with status ["running"] or ["killed"]; a call
    that is over has an [ending] after its [on_progress] calls, and its
    task has the status of its end. *)
Record ordered (w : world) : Prop := {
  unborn :
    forall r : ref, (w.(next_ref) <= r)%nat ->
      events_of r w.(trace) = [] /\ w.(frames) !! r = None /\
      w.(heap) !! r = None;
  polling :
    forall (r : ref) (f : frame), w.(frames) !! r = Some f ->
      (r < w.(next_ref))%nat /\
      (forall e, e ∈ events_of r w.(trace) -> terminal_event e = false) /\
      exists task, w.(heap) !! r = Some task /\
                   task.(task_id) = f.(f_task_id) /\
                   (task.(progress) < 100)%Z /\
                   (task.(status) = Running \/ task.(status) = Killed);
  over :
    forall r : ref, (r < w.(next_ref))%nat -> w.(frames) !! r = None ->
      (exists l tl, events_of r w.(trace) = l ++ tl /\
                    (forall e, e ∈ l -> terminal_event e = false) /\
                    ending tl) /\
      exists task, w.(heap) !! r = Some task /\
                   (task.(progress) <= 100)%Z /\
                   (task.(status) = Completed \/ task.(status) = Timeout \/
                    task.(status) = Failed) /\
                   (task.(status) = Completed -> task.(progress) = 100%Z)
}.

(** Two worlds that differ at most in the [status] fields of their task
    objects: the same events, suspended calls, monitor and references, and
    task objects that agree once their statuses are set to one value. *)
Definition same_but_status (w1 w2 : world) : Prop :=
  w1.(trace) = w2.(trace) /\
  w1.(frames) = w2.(frames) /\
  w1.(monitor) = w2.(monitor) /\
  w1.(next_ref) = w2.(next_ref) /\
  forall r : ref,
    set_status Running <$> w1.(heap) !! r =
    set_status Running <$> w2.(heap) !! r.

End Monitor.

(** * Properties *)

(** ** Arithmetic of the embedding *)

Section Arithmetic.
Local Open Scope Z_scope.


Lemma round_half_even_nonneg (x : Q) : (0 <= x)%Q -> 0 <= round_half_even x.
Proof.
  intros H. unfold round_half_even.
  assert (0 <= Qfloor x).
  { change 0 with (Qfloor 0). by apply Qfloor_resp_le. }
  destruct (_ ?= _)%Q; [destruct (Z.even _)|..]; lia.
Qed.

Lemma py_index_first {A} (a : A) (l : list A) : py_index (a :: l) 0 = Return a.
Proof. reflexivity. Qed.

Lemma py_index_last {A} (l : list A) (a : A) :
  last l = Some a -> py_index l (-1) = Return a.
Proof.
  intros H. unfold py_index.
  destruct l as [|b l]; [discriminate|].
  rewrite last_lookup in H.
  change (-1 <? 0) with true. cbv iota.
  destruct (_ <? 0) eqn:E.
  - apply Z.ltb_lt in E. simpl length in E. lia.
  - replace (Z.to_nat (Z.of_nat (length (b :: l)) + -1))
      with (Init.Nat.pred (length (b :: l))) by (simpl length; lia).
    by rewrite H.
Qed.

End Arithmetic.

(** ** The progress bar *)

Section Bar.
Import ProgressBar.
Local Open Scope Z_scope.




End Bar.

(** ** The cell count in binary64 *)

Section Rounding.
Import Binary64.
Local Open Scope Z_scope.

Lemma checked_below_spec (P : nat -> nat -> bool) (n : nat) :
  checked_below P n = true ->
  forall c w : nat, (c <= 100)%nat -> (w < n)%nat -> P c w = true.
Proof.
  unfold checked_below. intros H c w Hc Hw.
  rewrite forallb_forall in H. specialize (H w).
  rewrite forallb_forall in H. apply H; apply in_seq; lia.
Qed.

(** At every width below 50, the default width 10 among them, binary64
    gives the cell count of the exact arithmetic, for every percentage. *)
Lemma filled_binary64_exact_below_50 (p w : Z) :
  0 <= w < 50 ->
  filled (Z.max 0 (Z.min 100 p)) w = filled_exact (Z.max 0 (Z.min 100 p)) w.
Proof.
  intros Hw. set (c := Z.max 0 (Z.min 100 p)).
  assert (Hc : 0 <= c <= 100) by (subst c; lia).
  assert (H : checked_below agree 50 = true) by (vm_compute; reflexivity).
  pose proof (checked_below_spec _ _ H (Z.to_nat c) (Z.to_nat w)
                ltac:(lia) ltac:(lia)) as H'.
  unfold agree in H'. rewrite !Z2Nat.id in H' by lia. by apply Z.eqb_eq.
Qed.

(** From width 50 on the two can differ by one cell: rounding can leave the
    binary64 product just below the integer that the exact product is. *)
Example filled_binary64_one_less :
  filled 58 50 = 28 /\ filled_exact 58 50 = 29 /\
  filled 29 100 = 28 /\ filled_exact 29 100 = 29.
Proof. vm_compute. repeat split. Qed.

(** At every width up to 200 the binary64 count is the exact count or one
    cell less. *)
Lemma filled_binary64_within_one (p w : Z) :
  0 <= w <= 200 ->
  filled_exact (Z.max 0 (Z.min 100 p)) w - 1
    <= filled (Z.max 0 (Z.min 100 p)) w
    <= filled_exact (Z.max 0 (Z.min 100 p)) w.
Proof.
  intros Hw. set (c := Z.max 0 (Z.min 100 p)).
  assert (Hc : 0 <= c <= 100) by (subst c; lia).
  assert (H : checked_below within_one 201 = true) by (vm_compute; reflexivity).
  pose proof (checked_below_spec _ _ H (Z.to_nat c) (Z.to_nat w)
                ltac:(lia) ltac:(lia)) as H'.
  unfold within_one in H'. rewrite !Z2Nat.id in H' by lia.
  apply andb_true_iff in H' as [H1 H2].
  apply Z.leb_le in H1, H2. lia.
Qed.

End Rounding.

(** ** The sample store and the rate estimator *)

Section Tracker.
Import ProgressTracker.
Local Open Scope Z_scope.

(** [add_update] appends at the end of the list of its id and leaves every
    other list alone. *)
Lemma samples_add_update (self : t) (id : string) (p : Z)
    (ts : option datetime) (now : datetime) :
  samples (add_update self id p ts now) id =
  samples self id ++ [ {| percentage := p; timestamp := default now ts |} ].
Proof.
  unfold samples, add_update. cbn [updates].
  destruct (updates self !! id) as [l|] eqn:E.
  - rewrite lookup_alter_eq, E. reflexivity.
  - rewrite lookup_alter_eq, lookup_insert_eq. reflexivity.
Qed.

Lemma samples_add_update_ne (self : t) (id id' : string) (p : Z)
    (ts : option datetime) (now : datetime) :
  id <> id' -> samples (add_update self id p ts now) id' = samples self id'.
Proof.
  intros Hne. unfold samples, add_update. cbn [updates].
  rewrite lookup_alter_ne by done.
  destruct (updates self !! id); [done|]. by rewrite lookup_insert_ne.
Qed.

Lemma time_diff_minutes (d : timedelta) :
  (total_seconds d / 60 == inject_Z d / 60000000)%Q.
Proof. unfold total_seconds. field. Qed.

Lemma time_diff_zero (d : timedelta) :
  Qeq_bool (total_seconds d / 60) 0 = true <-> d = 0.
Proof.
  rewrite Qeq_bool_iff, time_diff_minutes.
  unfold Qeq, Qdiv, Qmult, Qinv, inject_Z. simpl. lia.
Qed.

Lemma get_progress_rate_eq (self : t) (id : string) :
  get_progress_rate self id = Return (rate_of (samples self id)).
Proof.
  unfold get_progress_rate, samples.
  destruct (updates self !! id) as [l|]; [|reflexivity]. cbn [from_option Datatypes.id].
  destruct l as [|first [|second l]]; [reflexivity..|].
  change (length (first :: second :: l) <? 2)%nat with false. cbv iota.
  rewrite py_index_first. cbn [mbind outcome_bind].
  destruct (last (first :: second :: l)) as [lst|] eqn:El.
  2:{ by apply last_None in El. }
  rewrite (py_index_last _ _ El). cbn [mbind outcome_bind].
  unfold rate_of. rewrite El.
  destruct (Qeq_bool _ 0) eqn:Ez.
  - apply time_diff_zero in Ez. rewrite decide_True by lia. reflexivity.
  - rewrite decide_False.
    + unfold py_truediv. rewrite Ez. reflexivity.
    + intros Heq. rewrite Heq, Z.sub_diag in Ez. discriminate.
Qed.

Lemma estimate_completion_eq (self : t) (id : string) :
  estimate_completion self id = Return (estimate_of (samples self id)).
Proof.
  unfold estimate_completion. rewrite get_progress_rate_eq.
  unfold samples, estimate_of.
  destruct (updates self !! id) as [l|]; [|reflexivity].
  cbn [from_option Datatypes.id mbind outcome_bind].
  destruct (last l) as [lst|] eqn:El.
  - destruct (Qle_bool (rate_of l) 0) eqn:Er; [reflexivity|].
    rewrite (py_index_last _ _ El). cbn [mbind outcome_bind].
    unfold py_truediv.
    destruct (Qeq_bool (rate_of l) 0) eqn:Ez; [|reflexivity].
    apply Qeq_bool_iff in Ez.
    assert (Qle_bool (rate_of l) 0 = true); [|congruence].
    apply Qle_bool_iff. rewrite Ez. apply Qle_refl.
  - apply last_None in El. subst l. reflexivity.
Qed.

End Tracker.

Section Estimator.
Import ProgressTracker.
Local Open Scope Z_scope.

Lemma samples_init (id : string) : samples __init__ id = [].
Proof. reflexivity. Qed.

(** C7. [get_progress_rate] never raises.  It returns 0 when the id has
    fewer than two samples, 0 when the first and the last sample carry the
    same timestamp, and otherwise the difference of the last and the first
    percentage divided by the minutes from the first to the last timestamp.
    For the samples (0, t0) and (50, t0 + 5 min) it returns 10. *)
Theorem get_progress_rate_first_to_last :
  (forall (self : t) (id : string),
     exists r : Q,
       get_progress_rate self id = Return r /\
       ((length (samples self id) < 2)%nat -> r = 0%Q) /\
       (forall first lst : update,
          head (samples self id) = Some first ->
          last (samples self id) = Some lst ->
          (2 <= length (samples self id))%nat ->
          (timestamp lst = timestamp first -> r = 0%Q) /\
          (timestamp lst <> timestamp first ->
           (r == inject_Z (percentage lst - percentage first)
                 / minutes_between (timestamp first) (timestamp lst))%Q))) /\
  (forall (id : string) (t0 now1 now2 : datetime),
     exists r : Q,
       get_progress_rate
         (add_update (add_update __init__ id 0 (Some t0) now1)
                     id 50 (Some (t0 + 5 * 60000000)) now2) id = Return r /\
       (r == 10)%Q).
Proof.
  split.
  - intros self id. exists (rate_of (samples self id)).
    split; [apply get_progress_rate_eq|].
    destruct (samples self id) as [|a [|b l]] eqn:El.
    + split; [done|]. intros ? ? ? ?; simpl; lia.
    + split; [done|]. intros ? ? ? ?; simpl; lia.
    + split; [simpl; lia|].
      intros first lst Hh Hl _. injection Hh as <-.
      unfold rate_of. rewrite Hl.
      split; intros Ht.
      * by rewrite decide_True.
      * rewrite decide_False by done.
        unfold minutes_between. by rewrite time_diff_minutes.
  - intros id t0 now1 now2. eexists.
    split; [apply get_progress_rate_eq|].
    rewrite !samples_add_update, samples_init. cbn [app from_option Datatypes.id].
    unfold rate_of. cbn [last percentage timestamp].
    rewrite decide_False by lia.
    replace (t0 + 5 * 60000000 - t0) with 300000000 by lia.
    reflexivity.
Qed.

Lemma get_progress_rate_first_to_last_witness :
  exists r : Q,
    get_progress_rate
      {| updates := {[ "job" := [ {| percentage := 10; timestamp := 0 |};
                                  {| percentage := 20; timestamp := 30000000 |};
                                  {| percentage := 40; timestamp := 120000000 |} ] ]} |}
      "job" = Return r /\ (r == 15)%Q.
Proof.
  destruct get_progress_rate_first_to_last as [H _].
  destruct (H {| updates := {[ "job" := [ {| percentage := 10; timestamp := 0 |};
                                  {| percentage := 20; timestamp := 30000000 |};
                                  {| percentage := 40; timestamp := 120000000 |} ] ]} |}
              "job") as (r & Hr & _ & Hc).
  exists r. split; [exact Hr|].
  destruct (Hc {| percentage := 10; timestamp := 0 |}
               {| percentage := 40; timestamp := 120000000 |}) as [_ Hq];
    [reflexivity | reflexivity | vm_compute; lia |].
  transitivity (inject_Z (40 - 10) / minutes_between 0 120000000)%Q;
    [apply Hq; discriminate | reflexivity].
Defined.



(** C10. When [estimate_completion] returns a timestamp and the last sample
    of the id has a percentage of at most 100, the timestamp returned is not
    earlier than the timestamp of that sample. *)
Theorem estimate_completion_not_before_last :
  forall (self : t) (id : string) (e : datetime) (lst : update),
    estimate_completion self id = Return (Some e) ->
    last (samples self id) = Some lst ->
    percentage lst <= 100 ->
    timestamp lst <= e.
Proof.
  intros self id e lst He Hl Hp.
  rewrite estimate_completion_eq in He. injection He as He.
  unfold estimate_of in He. rewrite Hl in He.
  destruct (Qle_bool _ 0) eqn:Er; [discriminate|]. injection He as <-.
  assert (Hr : (0 < rate_of (samples self id))%Q).
  { apply Qnot_le_lt. intros H. apply Qle_bool_iff in H. congruence. }
  assert (0 <= timedelta_minutes
                 (inject_Z (100 - percentage lst) / rate_of (samples self id))); [|lia].
  apply round_half_even_nonneg.
  apply Qmult_le_0_compat; [|done].
  apply Qle_shift_div_l; [done|].
  rewrite Qmult_0_l. change 0%Q with (inject_Z 0). rewrite <- Zle_Qle. lia.
Qed.

Lemma estimate_completion_not_before_last_witness :
  300000007 <= 600000007.
Proof.
  apply (estimate_completion_not_before_last
           {| updates := {[ "job" := [ {| percentage := 0; timestamp := 7 |};
                                  {| percentage := 50; timestamp := 300000007 |} ] ]} |}
           "job" 600000007 {| percentage := 50; timestamp := 300000007 |}).
  - vm_compute. reflexivity.
  - reflexivity.
  - simpl. lia.
Defined.

(** The second half of the rate example of the specification: the estimate
    for the samples (0, t0) and (50, t0 + 5 min) is t0 + 10 min. *)
Example estimate_completion_example (id : string) (t0 now1 now2 : datetime) :
  estimate_completion
    (add_update (add_update __init__ id 0 (Some t0) now1)
                id 50 (Some (t0 + 5 * 60000000)) now2) id
  = Return (Some (t0 + 10 * 60000000)).
Proof.
  rewrite estimate_completion_eq, !samples_add_update, samples_init.
  cbn [app from_option Datatypes.id]. unfold estimate_of, rate_of.
  cbn [last percentage timestamp]. rewrite decide_False by lia.
  replace (t0 + 5 * 60000000 - t0) with 300000000 by lia.
  change (Qle_bool _ 0) with false. cbv iota.
  do 2 f_equal.
  replace (t0 + 5 * 60000000 + _) with (t0 + 5 * 60000000 + 300000000);
    [lia | reflexivity].
Qed.

End Estimator.

(** ** The monitor: one pass of the polling loop *)

Section Polling.
Import Monitor.
Local Open Scope Z_scope.

Lemma deadline_test (elapsed : Q) (limit : Z) :
  negb (Qle_bool elapsed (inject_Z limit)) = true <-> (inject_Z limit < elapsed)%Q.
Proof.
  rewrite negb_true_iff. split.
  - intros H. apply Qnot_le_lt. intros Hle.
    apply Qle_bool_iff in Hle. congruence.
  - intros H. destruct (Qle_bool _ _) eqn:E; [|done].
    apply Qle_bool_iff in E. apply Qlt_not_le in H. contradiction.
Qed.

(** A pass that finds the deadline exceeded ends the call on the timeout
    path of [spawn_with_monitoring]. *)
Lemma drive_timeout (w : world) (r : ref) (f : frame) (task : SubagentTask)
    (tk : tick) :
  heap w !! r = Some task ->
  (inject_Z (timeout task) < time_elapsed tk - f_start_time f)%Q ->
  drive w r f tk =
  finish w r f (set_status Timeout task)
    ((if on_error f then [on_error_call (f_task_id f) TimeoutError] else [])
     ++ [call_raised TimeoutError]).
Proof.
  intros Ht Hd. unfold drive, loop_body. rewrite Ht.
  apply deadline_test in Hd. rewrite Hd. reflexivity.
Qed.

Lemma tag_app (r : ref) (l1 l2 : list event) :
  tag r (l1 ++ l2) = tag r l1 ++ tag r l2.
Proof. apply fmap_app. Qed.

(** C5. A pass through the loop that finds the elapsed time above the
    task's timeout sets the status to ["timeout"], calls [on_error] (when
    one was given) with a [TimeoutError], and makes the call of
    [spawn_with_monitoring] raise [TimeoutError]; the call is over and its
    registry entry deleted.  This holds for a pass after a sleep and for the
    first pass, inside the call that spawns the task. *)
Theorem timeout_reported_on_both_channels :
  (forall (w : world) (r : ref) (f : frame) (task : SubagentTask) (tk : tick),
     frames w !! r = Some f ->
     heap w !! r = Some task ->
     (inject_Z (timeout task) < time_elapsed tk - f_start_time f)%Q ->
     let w' := step w (Resume r tk) in
     heap w' !! r = Some (set_status Timeout task) /\
     trace w' =
       trace w
       ++ (if on_error f
           then [(r, on_error_call (f_task_id f) TimeoutError)] else [])
       ++ [(r, call_raised TimeoutError)] /\
     frames w' !! r = None /\
     active_tasks (monitor w') !! f_task_id f = None) /\
  (forall (w : world) (task : string) (tools : list string) (limit : Z)
          (task_id : option string) (on_progress on_complete on_error : bool)
          (ck : spawn_clock) (tk : tick),
     (inject_Z limit < time_elapsed tk - time_start ck)%Q ->
     let w' := step w (Spawn task tools limit task_id
                             on_progress on_complete on_error ck tk) in
     let r := next_ref w in
     let id := task_id_or task_id (time_id ck) in
     (exists t : SubagentTask,
        heap w' !! r = Some t /\ status t = Timeout /\ timeout t = limit) /\
     trace w' =
       trace w
       ++ (if on_error then [(r, on_error_call id TimeoutError)] else [])
       ++ [(r, call_raised TimeoutError)] /\
     frames w' !! r = None /\
     active_tasks (monitor w') !! id = None).
Proof.
  split.
  - intros w r f task tk Hf Ht Hd w'. subst w'.
    unfold step, resume. rewrite Hf, (drive_timeout _ _ _ _ _ Ht Hd).
    unfold finish. cbn [heap trace frames monitor active_tasks set_active_tasks].
    rewrite lookup_insert_eq, !lookup_delete_eq, tag_app.
    by destruct (on_error f).
  - intros w task tools limit task_id on_progress on_complete on_error ck tk
      Hd w' r id. subst w'. unfold step, spawn_with_monitoring.
    rewrite (drive_timeout _ _ _ _ _ (lookup_insert_eq _ _ _)) by exact Hd.
    unfold finish. cbn [heap trace frames monitor active_tasks set_active_tasks
                        f_task_id Monitor.on_error].
    rewrite lookup_insert_eq, !lookup_delete_eq, tag_app.
    split; [by eexists|]. by destruct on_error.
Qed.

Lemma timeout_reported_on_both_channels_witness :
  let w := spawn_with_monitoring (init 90 900) "Research" ["web_search"] 1
             (Some "t") true true true (clock_at 0) (tick_at 0) in
  let w' := step w (Resume 0%nat (tick_at 5)) in
  status <$> heap w' !! 0%nat = Some Timeout /\
  trace w' = [(0%nat, on_error_call "t" TimeoutError);
              (0%nat, call_raised TimeoutError)].
Proof.
  intros w w'.
  destruct timeout_reported_on_both_channels as [H _].
  destruct (H w 0%nat
              {| f_task_id := "t"; f_timeout := 1; on_progress := true;
                 on_complete := true; Monitor.on_error := true;
                 f_start_time := 0; f_last_update := 0 |}
              {| task_id := "t"; description := "Research"; start_time := 0;
                 timeout := 1; tools := ["web_search"]; status := Running;
                 progress := 0; last_update := 0; check_interval := 60;
                 next_check := 60000000 |}
              (tick_at 5)) as (Hh & Htr & _).
  - vm_compute. reflexivity.
  - vm_compute. reflexivity.
  - vm_compute. reflexivity.
  - fold w' in Hh, Htr. split.
    + rewrite Hh. reflexivity.
    + rewrite Htr. reflexivity.
Defined.

End Polling.

(** ** The monitor: [kill_task] *)

Section Cancel.
Import Monitor.
Local Open Scope Z_scope.

(** C4, as stated, fails: a second [kill_task] on a task that is already
    ["killed"] returns [True], although the status was not ["running"] and
    no transition from ["running"] takes place. *)
Lemma kill_task_twice_returns_true :
  let w := spawn_with_monitoring (init 90 900) "Research" ["web_search"] 300
             (Some "t") true true true (clock_at 0) (tick_at 0) in
  let w1 := (kill_task w "t").1 in
  status <$> heap w1 !! 0%nat = Some Killed /\
  active_tasks (monitor w1) !! "t" = Some 0%nat /\
  (kill_task w1 "t").2 = true /\
  ~ ((kill_task w1 "t").2 = false).
Proof. vm_compute. repeat split; discriminate. Qed.

(** C4, amended. [kill_task(task_id)] returns [True] exactly when [task_id]
    is a key of the registry.  When it is not, nothing changes.  When it is,
    the status of the registered task object becomes ["killed"] (a running
    task goes from ["running"] to ["killed"]) and nothing else changes. *)
Theorem kill_task_registered_only :
  forall (w : world) (id : string),
    ((kill_task w id).2 = true <-> is_Some (active_tasks (monitor w) !! id)) /\
    ((kill_task w id).2 = false -> (kill_task w id).1 = w) /\
    (forall (r : ref) (task : SubagentTask),
       active_tasks (monitor w) !! id = Some r ->
       heap w !! r = Some task ->
       heap (kill_task w id).1 !! r = Some (set_status Killed task) /\
       (forall r' : ref, r' <> r ->
          heap (kill_task w id).1 !! r' = heap w !! r') /\
       monitor (kill_task w id).1 = monitor w /\
       frames (kill_task w id).1 = frames w /\
       trace (kill_task w id).1 = trace w /\
       next_ref (kill_task w id).1 = next_ref w).
Proof.
  intros w id. unfold kill_task.
  destruct (active_tasks (monitor w) !! id) as [r|] eqn:E; cbn [fst snd].
  - split; [by split; eauto|]. split; [discriminate|].
    intros r' task [= <-] Ht. cbn [heap monitor frames trace next_ref].
    rewrite lookup_alter_eq, Ht. repeat split; try done.
    intros r'' Hne. by rewrite lookup_alter_ne.
  - split; [split; [discriminate | by intros [? ?]]|].
    split; [done|]. discriminate.
Qed.

Lemma kill_task_registered_only_witness :
  let w := spawn_with_monitoring (init 90 900) "Research" ["web_search"] 300
             (Some "t") true true true (clock_at 0) (tick_at 0) in
  (kill_task w "t").2 = true /\
  status <$> heap (kill_task w "t").1 !! 0%nat = Some Killed /\
  (kill_task w "other").1 = w.
Proof.
  intros w.
  destruct (kill_task_registered_only w "t") as (Hb & _ & Hk).
  destruct (kill_task_registered_only w "other") as (_ & Hn & _).
  split; [apply Hb; vm_compute; eauto|].
  split.
  - destruct (Hk 0%nat
                {| task_id := "t"; description := "Research"; start_time := 0;
                   timeout := 300; tools := ["web_search"]; status := Running;
                   progress := 0; last_update := 0; check_interval := 60;
                   next_check := 60000000 |}) as (Hh & _);
      [vm_compute; reflexivity | vm_compute; reflexivity |].
    rewrite Hh. reflexivity.
  - apply Hn. vm_compute. reflexivity.
Defined.

End Cancel.

(** ** The monitor: what a poll cycle writes *)

Section Samples.
Import Monitor.
Local Open Scope Z_scope.









End Samples.

(** ** The monitor: the registry and [list_active_tasks] *)

Section Registry.
Import Monitor.
Local Open Scope Z_scope.

(** A pass through the loop body changes neither the status of the task nor
    the task id of the call, and calls no terminal callback. *)
Lemma loop_body_keeps (self : t) (task task' : SubagentTask) (f f' : frame)
    (tk : tick) (evs : list event) (res : option result) :
  loop_body self task f tk = Return (task', f', evs, res) ->
  status task' = status task /\
  f_task_id f' = f_task_id f /\
  (forall e, e ∈ evs -> terminal_event e = false).
Proof.
  unfold loop_body, _send_progress_update. destruct (negb _); [discriminate|].
  destruct (py_truediv _ _) as [ratio|]; [|discriminate].
  cbn [mbind outcome_bind].
  destruct (Qle_bool (inject_Z (update_interval self)) _);
    destruct (100 <=? _); intros [= <- <- <- <-];
    (split; [reflexivity|]); (split; [reflexivity|]); intros e He;
    try (by apply not_elem_of_nil in He);
    destruct (on_progress f);
    try (by apply not_elem_of_nil in He);
    by apply list_elem_of_singleton in He as ->.
Qed.

Lemma elem_of_tag (r r' : ref) (e : event) (evs : list event) :
  (r', e) ∈ tag r evs <-> r' = r /\ e ∈ evs.
Proof.
  unfold tag. rewrite list_elem_of_fmap. split.
  - intros (e' & [= -> ->] & He). done.
  - intros [-> He]. by exists e.
Qed.

Lemma consistent_init (ui tt : Z) : consistent (init ui tt).
Proof.
  split; cbn [init monitor __init__ active_tasks frames trace].
  - intros id r H. by rewrite lookup_empty in H.
  - intros r f H. by rewrite lookup_empty in H.
  - intros r e H. by apply not_elem_of_nil in H.
Qed.

(** The end of the call that owns [r], from a world in which that call
    counts as suspended. *)
Lemma finish_consistent (w : world) (r : ref) (f f' : frame)
    (task : SubagentTask) (evs : list event) :
  consistent {| heap := heap w; next_ref := next_ref w; monitor := monitor w;
                frames := <[r := f]> (frames w); trace := trace w |} ->
  f_task_id f' = f_task_id f ->
  consistent (finish w r f' task evs).
Proof.
  intros [Hreg Hsus Hter] Hid.
  cbn [heap next_ref monitor frames trace] in *.
  split; cbn [finish heap next_ref monitor frames trace active_tasks
              set_active_tasks].
  - intros id r' H. apply lookup_delete_Some in H as [Hne H].
    destruct (Hreg id r' H) as (f0 & Hf0 & Hid0).
    destruct (decide (r' = r)) as [->|Hr].
    + rewrite lookup_insert_eq in Hf0. congruence.
    + rewrite lookup_insert_ne in Hf0 by done.
      exists f0. by rewrite lookup_delete_ne.
  - intros r' f0 H. apply lookup_delete_Some in H as [Hne H].
    destruct (Hsus r' f0) as (Hlt & task0 & Ht0 & Hs0).
    { by rewrite lookup_insert_ne. }
    split; [done|]. exists task0. by rewrite lookup_insert_ne.
  - intros r' e H He. apply elem_of_app in H as [H|H].
    + destruct (Hter r' e H He) as [Hlt Hn]. split; [done|].
      destruct (decide (r' = r)) as [->|Hr].
      * by rewrite lookup_insert_eq in Hn.
      * rewrite lookup_insert_ne in Hn by done. by rewrite lookup_delete_ne.
    + apply elem_of_tag in H as [-> _].
      destruct (Hsus r f) as [Hlt _]; [apply lookup_insert_eq|].
      split; [done|]. apply lookup_delete_eq.
Qed.

Lemma drive_consistent (w : world) (r : ref) (f : frame) (tk : tick) :
  consistent {| heap := heap w; next_ref := next_ref w; monitor := monitor w;
                frames := <[r := f]> (frames w); trace := trace w |} ->
  consistent (drive w r f tk).
Proof.
  intros Hc. pose proof Hc as [Hreg Hsus Hter].
  cbn [heap next_ref monitor frames trace] in *.
  destruct (Hsus r f) as (Hlt & task & Ht & Hs); [apply lookup_insert_eq|].
  unfold drive. rewrite Ht.
  destruct (loop_body (monitor w) task f tk)
    as [[[[task' f'] evs] res]|e] eqn:Hb.
  - apply loop_body_keeps in Hb as (Hst & Hid & Hev).
    destruct res as [res|]; [by apply finish_consistent with f|].
    split; cbn [heap next_ref monitor frames trace].
    + intros id r' H. destruct (Hreg id r' H) as (f0 & Hf0 & Hid0).
      destruct (decide (r' = r)) as [->|Hr].
      * rewrite lookup_insert_eq in Hf0. injection Hf0 as <-.
        exists f'. rewrite lookup_insert_eq. split; congruence.
      * rewrite lookup_insert_ne in Hf0 by done.
        exists f0. by rewrite lookup_insert_ne.
    + intros r' f0 H. destruct (decide (r' = r)) as [->|Hr].
      * split; [done|]. exists task'. rewrite lookup_insert_eq.
        split; [done|]. by rewrite Hst.
      * rewrite lookup_insert_ne in H by done.
        destruct (Hsus r' f0) as (Hlt' & task0 & Ht0 & Hs0).
        { by rewrite lookup_insert_ne. }
        split; [done|]. exists task0. by rewrite lookup_insert_ne.
    + intros r' e H He. apply elem_of_app in H as [H|H].
      * destruct (Hter r' e H He) as [Hlt' Hn]. split; [done|].
        destruct (decide (r' = r)) as [->|Hr].
        -- by rewrite lookup_insert_eq in Hn.
        -- by rewrite lookup_insert_ne in Hn |- *.
      * apply elem_of_tag in H as [_ H]. apply Hev in H. congruence.
  - destruct e; by apply finish_consistent with f.
Qed.

Lemma consistent_step (w : world) (o : op) :
  consistent w -> consistent (step w o).
Proof.
  intros Hc. pose proof Hc as [Hreg Hsus Hter].
  destruct o as [task tools limit task_id p c e ck tk|r tk|id|utcnow];
    cbn [step].
  - unfold spawn_with_monitoring. apply drive_consistent.
    split; cbn [heap next_ref monitor frames trace active_tasks
                set_active_tasks].
    + intros id r H. apply lookup_insert_Some in H as [[<- <-]|[Hne H]].
      * eexists. by rewrite lookup_insert_eq.
      * destruct (Hreg id r H) as (f0 & Hf0 & Hid0).
        destruct (Hsus r f0 Hf0) as [Hlt _].
        exists f0. rewrite lookup_insert_ne by lia. done.
    + intros r f0 H. apply lookup_insert_Some in H as [[<- <-]|[Hne H]].
      * split; [lia|]. eexists. rewrite lookup_insert_eq.
        split; [reflexivity|]. by left.
      * destruct (Hsus r f0 H) as (Hlt & task0 & Ht0 & Hs0).
        split; [lia|]. exists task0. rewrite lookup_insert_ne by lia. done.
    + intros r e0 H He. destruct (Hter r e0 H He) as [Hlt Hn].
      split; [lia|]. rewrite lookup_insert_ne by lia. done.
  - unfold resume. destruct (frames w !! r) as [f|] eqn:Hf; [|done].
    apply drive_consistent. rewrite insert_id by done. by destruct w.
  - unfold kill_task.
    destruct (active_tasks (monitor w) !! id) as [r|] eqn:Hid; [|done].
    cbn [fst]. split; cbn [heap next_ref monitor frames trace]; [done| |done].
    intros r' f0 H. destruct (Hsus r' f0 H) as (Hlt & task0 & Ht0 & Hs0).
    split; [done|]. destruct (decide (r' = r)) as [->|Hr].
    + exists (set_status Killed task0). rewrite lookup_alter_eq, Ht0.
      split; [done|]. by right.
    + exists task0. by rewrite lookup_alter_ne.
  - done.
Qed.

Lemma reachable_consistent (w : world) : reachable w -> consistent w.
Proof.
  induction 1 as [ui tt|w o _ IH];
    [apply consistent_init | by apply consistent_step].
Qed.


End Registry.

Section Listing.
Import Monitor.
Local Open Scope Z_scope.




End Listing.

(** ** The monitor: [kill_task] and the polling loop *)

Section KilledTasks.
Import Monitor.
Local Open Scope Z_scope.

(** C1, at the failing input.  A task with a timeout of 300 seconds is
    spawned at time 0 with an update interval of 90 seconds and
    [kill_task] is called during its first sleep; the loop is then woken
    every 5 seconds.  [kill_task] returns [True] and the status is
    ["killed"], yet the loop goes on: at 90 seconds it has passed 18 more
    deadline checks, computed the progress 60 and called [on_progress]; at
    150 seconds the call completes, calls [on_complete] and returns. *)
Theorem kill_task_leaves_loop_running :
  let w := spawn_with_monitoring (init 90 900) "Research" ["web_search"] 300
             (Some "t") true true true (clock_at 0) (tick_at 0) in
  let w1 := (kill_task w "t").1 in
  let w2 := run w1 (polls 0 1 18) in
  let w3 := run w2 (polls 0 19 12) in
  let res := {| result_status := "success"; result_task_id := "t";
                result_result := "Task completed" |} in
  (kill_task w "t").2 = true /\
  (status <$> heap w1 !! 0%nat) = Some Killed /\
  (progress <$> heap w1 !! 0%nat) = Some 0 /\
  (status <$> heap w2 !! 0%nat) = Some Killed /\
  (progress <$> heap w2 !! 0%nat) = Some 60 /\
  (last_update <$> heap w2 !! 0%nat) = Some 90000000 /\
  trace w2 = [(0%nat, on_progress_call "t" 60)] /\
  (status <$> heap w3 !! 0%nat) = Some Completed /\
  trace w3 = [(0%nat, on_progress_call "t" 60);
              (0%nat, on_complete_call "t" res);
              (0%nat, call_returned res)].
Proof. vm_compute. repeat split. Qed.

(** C2, at the failing input.  The status of a task goes from ["killed"] to
    ["completed"] when the polling loop of a killed task reaches 100, and
    from ["killed"] to ["timeout"] when it finds the deadline passed. *)
Theorem killed_status_is_overwritten :
  let w := spawn_with_monitoring (init 90 900) "Research" ["web_search"] 300
             (Some "t") false false false (clock_at 0) (tick_at 0) in
  let w1 := (kill_task w "t").1 in
  let w2 := run w1 (polls 0 1 30) in
  let v := spawn_with_monitoring (init 90 900) "Research" ["web_search"] 1
             (Some "t") false false false (clock_at 0) (tick_at 0) in
  let v1 := (kill_task v "t").1 in
  let v2 := run v1 (polls 0 1 1) in
  (status <$> heap w !! 0%nat) = Some Running /\
  (status <$> heap w1 !! 0%nat) = Some Killed /\
  (status <$> heap w2 !! 0%nat) = Some Completed /\
  (status <$> heap v !! 0%nat) = Some Running /\
  (status <$> heap v1 !! 0%nat) = Some Killed /\
  (status <$> heap v2 !! 0%nat) = Some Timeout.
Proof. vm_compute. repeat split. Qed.

End KilledTasks.

(** * Further properties of the code *)

(** ** The sample store over sequences of calls *)

Section Store.
Import ProgressTracker.
Local Open Scope Z_scope.

Lemma after_snoc (calls : list call) (c : call) :
  after (calls ++ [c]) = add_call (after calls) c.
Proof. unfold after. by rewrite foldl_app. Qed.

(** X1. After any sequence of calls of [add_update] on a new tracker, the
    samples of an id are the samples of the calls made for that id, in the
    order of the calls: nothing is lost, reordered, or taken from a call
    for another id; each sample carries the percentage of its call and the
    timestamp given, or the reading of [datetime.utcnow()] when none was
    given. *)
Theorem samples_after_calls :
  forall (calls : list call) (id : string),
    samples (after calls) id = sample_of <$> calls_for id calls.
Proof.
  intros calls id. induction calls as [|c calls IH] using rev_ind.
  - reflexivity.
  - rewrite after_snoc. unfold add_call, calls_for.
    rewrite filter_app, fmap_app, filter_cons, filter_nil.
    destruct (decide (call_id c = id)) as [<-|Hne].
    + rewrite samples_add_update. unfold calls_for in IH. by rewrite IH.
    + rewrite samples_add_update_ne by done. unfold calls_for in IH.
      by rewrite IH, app_nil_r.
Qed.






End Store.

(** ** The rate and the estimate as functions of the samples *)

Section Extrapolation.
Import ProgressTracker.
Local Open Scope Z_scope.

Lemma last_ends {A} (a b : A) (mid : list A) :
  last (a :: mid ++ [b]) = Some b.
Proof. rewrite app_comm_cons. apply last_snoc. Qed.

Lemma rate_of_ends (first lst : update) (mid : list update) :
  rate_of (first :: mid ++ [lst]) = rate_of [first; lst].
Proof.
  unfold rate_of. rewrite last_ends. by destruct mid.
Qed.

Lemma estimate_of_ends (first lst : update) (mid : list update) :
  estimate_of (first :: mid ++ [lst]) = estimate_of [first; lst].
Proof.
  unfold estimate_of. by rewrite last_ends, rate_of_ends.
Qed.

(** X4. The rate and the estimate depend on the first and the last sample
    of an id only: two stores whose lists for the id start and end with the
    same samples give the same rate and the same estimate, whatever lies
    between. *)
Theorem rate_ignores_intermediate_samples :
  forall (self self' : t) (id : string) (first lst : update)
         (mid mid' : list update),
    samples self id = first :: mid ++ [lst] ->
    samples self' id = first :: mid' ++ [lst] ->
    get_progress_rate self id = get_progress_rate self' id /\
    estimate_completion self id = estimate_completion self' id.
Proof.
  intros self self' id first lst mid mid' H H'.
  rewrite !get_progress_rate_eq, !estimate_completion_eq, H, H'.
  by rewrite !rate_of_ends, !estimate_of_ends.
Qed.

Lemma rate_ignores_intermediate_samples_witness :
  get_progress_rate
    {| updates := {[ "job" := [ {| percentage := 0; timestamp := 0 |};
                                {| percentage := 90; timestamp := 60000000 |};
                                {| percentage := 20; timestamp := 120000000 |} ] ]} |}
    "job" =
  get_progress_rate
    {| updates := {[ "job" := [ {| percentage := 0; timestamp := 0 |};
                                {| percentage := 20; timestamp := 120000000 |} ] ]} |}
    "job".
Proof.
  apply (rate_ignores_intermediate_samples _ _ "job"
           {| percentage := 0; timestamp := 0 |}
           {| percentage := 20; timestamp := 120000000 |}
           [ {| percentage := 90; timestamp := 60000000 |} ] []);
    reflexivity.
Defined.

Lemma inject_Z_nonzero (z : Z) : z <> 0 -> ~ (inject_Z z == 0)%Q.
Proof.
  intros Hz H. unfold Qeq in H. simpl in H. lia.
Qed.

(** The rate over a positive span of time, as a quotient of integers. *)
Lemma rate_two_samples (first lst : update) :
  timestamp first < timestamp lst ->
  (rate_of [first; lst] ==
   inject_Z ((percentage lst - percentage first) * 60000000)
   / inject_Z (timestamp lst - timestamp first))%Q.
Proof.
  intros Ht. unfold rate_of. cbn [last].
  rewrite decide_False by lia. rewrite time_diff_minutes.
  rewrite inject_Z_mult. field. apply inject_Z_nonzero. lia.
Qed.

Lemma Qdiv_pos_sign (a d : Z) :
  0 < d ->
  ((0 < inject_Z a / inject_Z d)%Q <-> 0 < a) /\
  ((inject_Z a / inject_Z d <= 0)%Q <-> a <= 0).
Proof.
  intros Hd. destruct d as [|d|d]; try lia.
  unfold Qlt, Qle, Qdiv, Qmult, Qinv, inject_Z. simpl. split; split; nia.
Qed.

(** X5. With the last sample later than the first, the rate is positive
    exactly when the last percentage is above the first, and
    [estimate_completion] returns [None] exactly when it is not: a task
    that has stalled or gone back gets no estimate. *)
Theorem estimate_needs_progress :
  forall (self : t) (id : string) (first lst : update) (mid : list update),
    samples self id = first :: mid ++ [lst] ->
    timestamp first < timestamp lst ->
    exists r : Q,
      get_progress_rate self id = Return r /\
      ((0 < r)%Q <-> percentage first < percentage lst) /\
      (estimate_completion self id = Return None <->
       percentage lst <= percentage first).
Proof.
  intros self id first lst mid H Ht.
  rewrite get_progress_rate_eq, estimate_completion_eq, H.
  rewrite rate_of_ends, estimate_of_ends.
  exists (rate_of [first; lst]). split; [done|].
  pose proof (rate_two_samples first lst Ht) as Hr.
  destruct (Qdiv_pos_sign ((percentage lst - percentage first) * 60000000)
              (timestamp lst - timestamp first) ltac:(lia)) as [Hpos Hneg].
  split.
  - rewrite Hr, Hpos. lia.
  - unfold estimate_of. cbn [last].
    destruct (Qle_bool _ 0) eqn:E.
    + apply Qle_bool_iff in E. rewrite Hr, Hneg in E. split; [lia|done].
    + split; [discriminate|]. intros Hp.
      assert (Qle_bool (rate_of [first; lst]) 0 = true); [|congruence].
      apply Qle_bool_iff. rewrite Hr, Hneg. lia.
Qed.

Lemma estimate_needs_progress_witness :
  estimate_completion
    {| updates := {[ "job" := [ {| percentage := 40; timestamp := 0 |};
                                {| percentage := 40; timestamp := 120000000 |} ] ]} |}
    "job" = Return None.
Proof.
  destruct (estimate_needs_progress
              {| updates := {[ "job" := [ {| percentage := 40; timestamp := 0 |};
                                {| percentage := 40; timestamp := 120000000 |} ] ]} |}
              "job" {| percentage := 40; timestamp := 0 |}
              {| percentage := 40; timestamp := 120000000 |} [])
    as (r & _ & _ & H); [reflexivity | simpl; lia |].
  apply H. simpl. lia.
Defined.

Lemma round_half_even_comp (x y : Q) :
  (x == y)%Q -> round_half_even x = round_half_even y.
Proof.
  intros H. unfold round_half_even.
  rewrite (Qfloor_comp _ _ H).
  assert (Hc : ((x - inject_Z (Qfloor y)) ?= 1 # 2)%Q
               = ((y - inject_Z (Qfloor y)) ?= 1 # 2)%Q) by (by rewrite H).
  by rewrite Hc.
Qed.



End Extrapolation.

Section EstimateEdges.
Import ProgressTracker.
Local Open Scope Z_scope.

Lemma round_half_even_nonpos (x : Q) : (x <= 0)%Q -> round_half_even x <= 0.
Proof.
  intros H. unfold round_half_even.
  assert (Hf : Qfloor x <= 0).
  { change 0 with (Qfloor 0). by apply Qfloor_resp_le. }
  destruct (Z.eq_dec (Qfloor x) 0) as [H0|H0]; [|
    destruct (_ ?= _)%Q; [destruct (Z.even _)|..]; lia].
  rewrite H0.
  assert (Hlt : ((x - inject_Z 0) ?= 1 # 2)%Q = Lt).
  { apply Qlt_alt. apply Qle_lt_trans with 0%Q; [|reflexivity].
    assert (Hx : (x - inject_Z 0 == x)%Q) by (unfold inject_Z; ring).
    by rewrite Hx. }
  by rewrite Hlt.
Qed.

(** X7. When [estimate_completion] returns a timestamp and the last sample
    of the id is at 100 percent, the timestamp is that of the last sample;
    when the last sample is above 100, it is not later than the last
    sample: the estimate lies in the past. *)
Theorem estimate_at_or_above_100 :
  forall (self : t) (id : string) (e : datetime) (lst : update),
    estimate_completion self id = Return (Some e) ->
    last (samples self id) = Some lst ->
    100 <= percentage lst ->
    e <= timestamp lst /\ (percentage lst = 100 -> e = timestamp lst).
Proof.
  intros self id e lst He Hl Hp.
  rewrite estimate_completion_eq in He. injection He as He.
  unfold estimate_of in He. rewrite Hl in He.
  destruct (Qle_bool _ 0) eqn:Er; [discriminate|]. injection He as <-.
  assert (Hr : (0 < rate_of (samples self id))%Q).
  { apply Qnot_le_lt. intros H. apply Qle_bool_iff in H. congruence. }
  split.
  - assert (timedelta_minutes
              (inject_Z (100 - percentage lst) / rate_of (samples self id)) <= 0);
      [|lia].
    apply round_half_even_nonpos.
    assert (Hq : (inject_Z (100 - percentage lst)
                  / rate_of (samples self id) <= 0)%Q).
    { apply Qle_shift_div_r; [done|]. rewrite Qmult_0_l.
      change 0%Q with (inject_Z 0). rewrite <- Zle_Qle. lia. }
    assert (Hz : (0 == 0 * 60000000)%Q) by ring.
    rewrite Hz. by apply Qmult_le_compat_r.
  - intros ->. replace (100 - 100) with 0 by lia.
    unfold timedelta_minutes.
    rewrite (round_half_even_comp _ 0);
      [change (round_half_even 0) with 0; lia|].
    unfold Qdiv. ring.
Qed.

Lemma estimate_at_or_above_100_witness :
  90000000 <= 90000000 /\ (100 = 100 -> 90000000 = 90000000).
Proof.
  apply (estimate_at_or_above_100
           {| updates := {[ "job" := [ {| percentage := 10; timestamp := 0 |};
                                {| percentage := 100; timestamp := 90000000 |} ] ]} |}
           "job" 90000000 {| percentage := 100; timestamp := 90000000 |}).
  - vm_compute. reflexivity.
  - reflexivity.
  - simpl. lia.
Defined.




End EstimateEdges.

(** ** More on the progress bar *)

Section BarShape.
Import ProgressBar.
Local Open Scope Z_scope.

(** The number of filled cells of [ProgressBar(p, w).render()]. *)
Lemma render_cells (p w : Z) :
  render (__init__ p w) =
  str_mul glyph_filled (Binary64.filled_exact (Z.max 0 (Z.min 100 p)) w)
  ++ str_mul glyph_empty (w - Binary64.filled_exact (Z.max 0 (Z.min 100 p)) w).
Proof. reflexivity. Qed.

Lemma filled_exact_quot (c w : Z) :
  Binary64.filled_exact c w = Z.quot (c * w) 100.
Proof.
  unfold Binary64.filled_exact, py_int, Qdiv, Qmult, Qinv, inject_Z. simpl.
  by rewrite Z.mul_1_r.
Qed.

Lemma filled_exact_bounds (c w : Z) :
  0 <= c <= 100 -> 0 <= w -> 0 <= Binary64.filled_exact c w <= w.
Proof.
  intros Hc Hw. rewrite filled_exact_quot. split.
  - apply Z.quot_pos; nia.
  - rewrite <- (Z.quot_mul w 100) at 2 by lia.
    apply Z.quot_le_mono; nia.
Qed.

Lemma filled_exact_mono (c c' w : Z) :
  0 <= w -> c <= c' ->
  Binary64.filled_exact c w <= Binary64.filled_exact c' w.
Proof.
  intros Hw Hc. rewrite !filled_exact_quot. apply Z.quot_le_mono; nia.
Qed.

(** X9. A bar of width zero or less renders as the empty string, whatever
    the percentage. *)
Theorem render_without_width :
  forall p w : Z, w <= 0 -> render (__init__ p w) = [].
Proof.
  intros p w Hw. rewrite render_cells.
  set (c := Z.max 0 (Z.min 100 p)).
  assert (Hc : 0 <= c <= 100) by (subst c; lia).
  assert (H : w <= Binary64.filled_exact c w <= 0).
  { rewrite filled_exact_quot. split.
    - rewrite <- (Z.quot_mul w 100) at 1 by lia.
      apply Z.quot_le_mono; nia.
    - change 0 with (Z.quot 0 100). apply Z.quot_le_mono; nia. }
  unfold str_mul. rewrite !Z2Nat.nonpos by lia. reflexivity.
Qed.

Lemma render_without_width_witness : render (__init__ 70 (-10)) = [].
Proof. apply render_without_width. lia. Defined.

(** X10. At a fixed width [w >= 0] the bar never goes back when the
    percentage grows: a larger percentage fills at least as many cells, and
    both bars have [w] cells. *)
Theorem render_monotone :
  forall p q w : Z,
    0 <= w -> p <= q ->
    exists a b : nat,
      render (__init__ p w) =
        replicate a glyph_filled ++ replicate (Z.to_nat w - a) glyph_empty /\
      render (__init__ q w) =
        replicate b glyph_filled ++ replicate (Z.to_nat w - b) glyph_empty /\
      (a <= b <= Z.to_nat w)%nat.
Proof.
  intros p q w Hw Hpq.
  set (c := Z.max 0 (Z.min 100 p)). set (c' := Z.max 0 (Z.min 100 q)).
  assert (Hc : 0 <= c <= 100) by (subst c; lia).
  assert (Hc' : 0 <= c' <= 100) by (subst c'; lia).
  pose proof (filled_exact_bounds c w Hc Hw).
  pose proof (filled_exact_bounds c' w Hc' Hw).
  pose proof (filled_exact_mono c c' w Hw ltac:(subst c c'; lia)).
  exists (Z.to_nat (Binary64.filled_exact c w)),
         (Z.to_nat (Binary64.filled_exact c' w)).
  rewrite !render_cells. fold c c'. unfold str_mul.
  rewrite !Z2Nat.inj_sub by lia. repeat split; lia.
Qed.

Lemma render_monotone_witness :
  exists a b : nat,
    render (__init__ 25 8) =
      replicate a glyph_filled ++ replicate (8 - a) glyph_empty /\
    render (__init__ 80 8) =
      replicate b glyph_filled ++ replicate (8 - b) glyph_empty /\
    (a <= b <= 8)%nat.
Proof. apply (render_monotone 25 80 8); lia. Defined.

(** X11. Percentages outside 0..100 render like the nearest bound: at any
    width [w >= 0], a percentage of 100 or more gives [w] filled cells and
    a percentage of 0 or less gives [w] empty cells. *)
Theorem render_saturates :
  forall p w : Z,
    0 <= w ->
    (100 <= p -> render (__init__ p w) = replicate (Z.to_nat w) glyph_filled) /\
    (p <= 0 -> render (__init__ p w) = replicate (Z.to_nat w) glyph_empty).
Proof.
  intros p w Hw. split; intros Hp; rewrite render_cells.
  - replace (Z.max 0 (Z.min 100 p)) with 100 by lia.
    rewrite filled_exact_quot, Z.mul_comm, Z.quot_mul by lia.
    unfold str_mul. rewrite Z.sub_diag. apply app_nil_r.
  - replace (Z.max 0 (Z.min 100 p)) with 0 by lia.
    rewrite filled_exact_quot, Z.mul_0_l. change (Z.quot 0 100) with 0.
    unfold str_mul. by rewrite Z.sub_0_r.
Qed.

Lemma render_saturates_witness :
  render (__init__ 250 6) = replicate 6 glyph_filled /\
  render (__init__ (-5) 6) = replicate 6 glyph_empty.
Proof.
  destruct (render_saturates 250 6 ltac:(lia)) as [H _].
  destruct (render_saturates (-5) 6 ltac:(lia)) as [_ H'].
  split; [apply H | apply H']; lia.
Defined.

(** The decimal form of a number from 0 to 100 has one to three digits. *)
Lemma pretty_percentage_length (c : Z) :
  0 <= c <= 100 -> (1 <= String.length (pretty c) <= 3)%nat.
Proof.
  intros Hc.
  assert (H : forallb (fun n => let k := String.length (pretty (Z.of_nat n)) in
                                (1 <=? k)%nat && (k <=? 3)%nat)
                      (seq 0 101) = true) by (vm_compute; reflexivity).
  rewrite forallb_forall in H.
  specialize (H (Z.to_nat c) ltac:(apply in_seq; lia)).
  rewrite Z2Nat.id in H by lia. cbv zeta in H.
  apply andb_true_iff in H as [H1 H2].
  apply Nat.leb_le in H1, H2. lia.
Qed.

Lemma length_str_of_string (s : string) :
  length (str_of_string s) = String.length s.
Proof.
  unfold str_of_string. rewrite length_fmap.
  induction s as [|a s IH]; [reflexivity|]. simpl. by rewrite IH.
Qed.

Lemma string_length_app (s1 s2 : string) :
  String.length (s1 +:+ s2) = (String.length s1 + String.length s2)%nat.
Proof. induction s1 as [|a s1 IH]; [reflexivity|]. simpl. by rewrite IH. Qed.

(** X12. The text of a bar, [str(ProgressBar(p, w))], shows the clamped
    percentage: it is the text of the bar built with [p] clamped to 0..100,
    and for [w >= 0] it is [w] cells, a space, one to three digits and a
    percent sign, so between [w + 3] and [w + 5] characters. *)
Theorem str_shows_clamped_percentage :
  forall p w : Z,
    __str__ (__init__ p w) = __str__ (__init__ (Z.max 0 (Z.min 100 p)) w) /\
    (0 <= w ->
     w + 3 <= Z.of_nat (length (__str__ (__init__ p w))) <= w + 5).
Proof.
  intros p w. split.
  - unfold __str__. rewrite !render_cells. cbn [percentage __init__].
    by replace (Z.max 0 (Z.min 100 (Z.max 0 (Z.min 100 p))))
      with (Z.max 0 (Z.min 100 p)) by lia.
  - intros Hw. unfold __str__. rewrite render_cells. cbn [percentage __init__].
    set (c := Z.max 0 (Z.min 100 p)).
    assert (Hc : 0 <= c <= 100) by (subst c; lia).
    pose proof (filled_exact_bounds c w Hc Hw).
    pose proof (pretty_percentage_length c Hc).
    unfold str_mul.
    rewrite !length_app, !length_replicate, length_str_of_string,
      !string_length_app.
    change (String.length " ") with 1%nat. change (String.length "%") with 1%nat.
    lia.
Qed.

Lemma str_shows_clamped_percentage_witness :
  4 + 3 <= Z.of_nat (length (__str__ (__init__ 250 4))) <= 4 + 5.
Proof.
  destruct (str_shows_clamped_percentage 250 4) as [_ H]. apply H. lia.
Defined.

End BarShape.

(** ** The monitor: what a pass through the loop does *)

Section Passes.
Import Monitor.
Local Open Scope Z_scope.

Lemma quot_ge_100 (a b : Z) : 0 < b -> (100 <= Z.quot a b <-> 100 * b <= a).
Proof.
  intros Hb. destruct (Z.lt_ge_cases a 0) as [Ha|Ha].
  - assert (Z.quot a b <= 0).
    { rewrite <- (Z.quot_0_l b) by lia. apply Z.quot_le_mono; lia. }
    nia.
  - rewrite Z.quot_div_nonneg by lia. split; intros H.
    + pose proof (Z.mul_div_le a b Hb). nia.
    + apply Z.div_le_lower_bound; lia.
Qed.

(** With a positive timeout, the simulated progress reaches 100 exactly
    when half the timeout has elapsed. *)
Lemma progress_reaches_100 (elapsed : Q) (limit : Z) :
  0 < limit ->
  100 <= Z.min 100 (py_int (elapsed / inject_Z limit * 100 * 2)) <->
  (inject_Z limit <= 2 * elapsed)%Q.
Proof.
  intros Hl. destruct limit as [|l|l]; try lia. destruct elapsed as [n d].
  assert (H : forall z, 100 <= Z.min 100 z <-> 100 <= z) by lia.
  rewrite H. unfold py_int, Qle, Qdiv, Qmult, Qinv, inject_Z.
  cbn -[Z.mul Z.quot Pos.mul].
  rewrite quot_ge_100 by lia.
  rewrite ?Pos.mul_1_r, ?Z.mul_1_r, ?Pos2Z.inj_mul. nia.
Qed.

Lemma below_half_below_limit (elapsed : Q) (limit : Z) :
  0 < limit -> (2 * elapsed < inject_Z limit)%Q ->
  (elapsed <= inject_Z limit)%Q /\ ~ (inject_Z limit <= 2 * elapsed)%Q.
Proof.
  intros Hl H. split; [|by apply Qlt_not_le].
  destruct elapsed as [n d]. unfold Qlt, Qle, Qmult, inject_Z in *.
  cbn -[Z.mul Pos.mul] in *. rewrite ?Pos.mul_1_r, ?Pos2Z.inj_mul in *. nia.
Qed.

Lemma timeout_not_zero (limit : Z) :
  limit <> 0 -> Qeq_bool (inject_Z limit) 0 = false.
Proof.
  intros Hz. destruct (Qeq_bool _ 0) eqn:E; [|done].
  apply Qeq_bool_iff in E. unfold Qeq in E. simpl in E. lia.
Qed.

(** The loop body, branch by branch. *)
Lemma loop_body_eq (self : t) (task : SubagentTask) (f : frame) (tk : tick) :
  loop_body self task f tk =
  let elapsed := (time_elapsed tk - f_start_time f)%Q in
  if negb (Qle_bool elapsed (inject_Z (timeout task))) then
    Raise AsyncioTimeoutError
  else if Qeq_bool (inject_Z (timeout task)) 0 then Raise ZeroDivisionError
  else
    let p := Z.min 100 (py_int (elapsed / inject_Z (timeout task) * 100 * 2)) in
    let task' := set_last_update (utcnow_update tk) (set_progress p task) in
    let due := Qle_bool (inject_Z (update_interval self))
                        (time_interval tk - f_last_update f) in
    Return (task',
            if due then set_f_last_update (time_reset tk) f else f,
            if due then (if on_progress f
                         then [on_progress_call (task_id task) p] else [])
            else [],
            if 100 <=? p
            then Some {| result_status := "success";
                         result_task_id := task_id task;
                         result_result := "Task completed" |}
            else None).
Proof.
  unfold loop_body, py_truediv, _send_progress_update. cbv zeta.
  destruct (negb _); [reflexivity|].
  destruct (Qeq_bool (inject_Z (timeout task)) 0); [reflexivity|].
  cbn [mbind outcome_bind].
  destruct (Qle_bool (inject_Z (update_interval self)) _);
    cbn [progress task_id set_progress set_last_update];
    by destruct (100 <=? _).
Qed.

Lemma events_of_app (r : ref) (tr1 tr2 : list (ref * event)) :
  events_of r (tr1 ++ tr2) = events_of r tr1 ++ events_of r tr2.
Proof. unfold events_of. by rewrite filter_app, fmap_app. Qed.

Lemma events_of_tag (r r' : ref) (evs : list event) :
  events_of r (tag r' evs) = if decide (r' = r) then evs else [].
Proof.
  unfold events_of, tag. induction evs as [|e evs IH].
  - by destruct (decide (r' = r)).
  - rewrite fmap_cons, filter_cons. cbn [fst].
    destruct (decide (r' = r)) as [->|Hne].
    + rewrite fmap_cons. cbn [snd]. by rewrite IH.
    + exact IH.
Qed.

(** X13. With a positive timeout, what a pass through the loop does is
    decided by the elapsed time it reads.  Below half the timeout the call
    goes on polling: the status stays as it is and the pass calls at most
    [on_progress].  From half the timeout up to the timeout the call
    completes: the status becomes ["completed"], the progress 100,
    [on_complete] (when given) is called with the result, and the call
    returns that result.  Above the timeout the call ends with the status
    ["timeout"]. *)
Theorem pass_outcome_by_elapsed_time :
  forall (w : world) (r : ref) (f : frame) (task : SubagentTask) (tk : tick),
    frames w !! r = Some f ->
    heap w !! r = Some task ->
    0 < timeout task ->
    let elapsed := (time_elapsed tk - f_start_time f)%Q in
    let w' := step w (Resume r tk) in
    let res := {| result_status := "success";
                  result_task_id := task_id task;
                  result_result := "Task completed" |} in
    ((2 * elapsed < inject_Z (timeout task))%Q ->
     is_Some (frames w' !! r) /\
     (status <$> heap w' !! r) = Some (status task) /\
     exists evs,
       trace w' = trace w ++ tag r evs /\
       (forall e, e ∈ evs -> terminal_event e = false)) /\
    ((inject_Z (timeout task) <= 2 * elapsed)%Q ->
     (elapsed <= inject_Z (timeout task))%Q ->
     frames w' !! r = None /\
     (status <$> heap w' !! r) = Some Completed /\
     (progress <$> heap w' !! r) = Some 100 /\
     exists evs,
       trace w' =
         trace w
         ++ tag r (evs
                   ++ (if on_complete f
                       then [on_complete_call (f_task_id f) res] else [])
                   ++ [call_returned res]) /\
       (forall e, e ∈ evs -> terminal_event e = false)) /\
    ((inject_Z (timeout task) < elapsed)%Q ->
     frames w' !! r = None /\
     (status <$> heap w' !! r) = Some Timeout).
Proof.
  intros w r f task tk Hf Ht Hl elapsed w' res. subst w'. cbn [step].
  unfold resume. rewrite Hf.
  assert (Hev : forall e, e ∈ (if Qle_bool (inject_Z (update_interval (monitor w)))
                                   (time_interval tk - f_last_update f)
                               then if on_progress f
                                    then [on_progress_call (task_id task)
                                            (Z.min 100 (py_int (elapsed / inject_Z (timeout task) * 100 * 2)))]
                                    else []
                               else []) -> terminal_event e = false).
  { intros e He. destruct (Qle_bool _ _); [destruct (on_progress f)|];
      try (by apply not_elem_of_nil in He).
    by apply list_elem_of_singleton in He as ->. }
  split; [|split].
  - intros Hlow.
    destruct (below_half_below_limit _ _ Hl Hlow) as [Hd Hnot].
    unfold drive. rewrite Ht, loop_body_eq. cbv zeta. fold elapsed.
    rewrite (proj2 (negb_false_iff _)) by (by apply Qle_bool_iff).
    rewrite timeout_not_zero by lia.
    destruct (100 <=? _) eqn:E.
    { apply Z.leb_le in E. apply progress_reaches_100 in E; [done|lia]. }
    cbn [frames heap trace]. rewrite !lookup_insert_eq.
    split; [by eexists|]. split; [reflexivity|].
    eexists. split; [reflexivity|exact Hev].
  - intros Hhalf Hd.
    unfold drive. rewrite Ht, loop_body_eq. cbv zeta. fold elapsed.
    rewrite (proj2 (negb_false_iff _)) by (by apply Qle_bool_iff).
    rewrite timeout_not_zero by lia.
    pose proof (proj2 (progress_reaches_100 elapsed _ Hl) Hhalf) as E.
    apply Z.leb_le in E. rewrite E.
    unfold finish. cbn [frames heap trace].
    rewrite lookup_insert_eq, lookup_delete_eq.
    split; [reflexivity|]. split; [reflexivity|]. split; [reflexivity|].
    eexists. split; [|exact Hev].
    destruct (Qle_bool (inject_Z (update_interval (monitor w))) _);
      reflexivity.
  - intros Hd. rewrite (drive_timeout _ _ _ _ _ Ht Hd).
    unfold finish. cbn [frames heap]. by rewrite lookup_insert_eq, lookup_delete_eq.
Qed.

Lemma pass_outcome_by_elapsed_time_witness :
  let w := spawn_with_monitoring (init 90 900) "Research" ["web_search"] 300
             (Some "t") true true true (clock_at 0) (tick_at 0) in
  let w' := step w (Resume 0%nat (tick_at 200)) in
  frames w' !! 0%nat = None /\
  (status <$> heap w' !! 0%nat) = Some Completed /\
  (progress <$> heap w' !! 0%nat) = Some 100.
Proof.
  intros w w'.
  destruct (pass_outcome_by_elapsed_time w 0%nat
              {| f_task_id := "t"; f_timeout := 300; on_progress := true;
                 on_complete := true; Monitor.on_error := true;
                 f_start_time := 0; f_last_update := 0 |}
              {| task_id := "t"; description := "Research"; start_time := 0;
                 timeout := 300; tools := ["web_search"]; status := Running;
                 progress := 0; last_update := 0; check_interval := 60;
                 next_check := 60000000 |}
              (tick_at 200)) as (_ & H & _);
    [vm_compute; reflexivity | vm_compute; reflexivity | simpl; lia |].
  destruct H as (H1 & H2 & H3 & _);
    [vm_compute; discriminate | vm_compute; discriminate |].
  fold w' in H1, H2, H3. by repeat split.
Defined.

End Passes.

(** ** The monitor: the events and the task of a call, over every run *)

Section Runs.
Import Monitor.
Local Open Scope Z_scope.

(** What a pass that returns leaves behind. *)
Lemma loop_body_inv (self : t) (task task' : SubagentTask) (f f' : frame)
    (tk : tick) (evs : list event) (res : option result) :
  loop_body self task f tk = Return (task', f', evs, res) ->
  task_id task' = task_id task /\
  status task' = status task /\
  progress task' <= 100 /\
  (res = None -> progress task' < 100) /\
  f_task_id f' = f_task_id f /\
  (forall e, e ∈ evs -> terminal_event e = false).
Proof.
  rewrite loop_body_eq. cbv zeta.
  destruct (negb _); [discriminate|].
  destruct (Qeq_bool _ 0); [discriminate|].
  intros [= <- <- <- <-].
  cbn [task_id status progress set_progress set_last_update].
  repeat split; try lia.
  - destruct (100 <=? _) eqn:E; [discriminate|]. apply Z.leb_gt in E. lia.
  - by destruct (Qle_bool _ _).
  - intros e He. destruct (Qle_bool _ _); [destruct (on_progress f)|];
      try (by apply not_elem_of_nil in He).
    by apply list_elem_of_singleton in He as ->.
Qed.

(** The two ways a pass can leave the world: the call sleeps again, or it
    is over. *)
Lemma drive_shape (w : world) (r : ref) (f : frame) (task : SubagentTask)
    (tk : tick) :
  heap w !! r = Some task ->
  progress task <= 100 ->
  (exists task' f' evs,
     drive w r f tk =
       {| heap := <[r := task']> (heap w); next_ref := next_ref w;
          monitor := monitor w; frames := <[r := f']> (frames w);
          trace := trace w ++ tag r evs |} /\
     task_id task' = task_id task /\ status task' = status task /\
     progress task' < 100 /\ f_task_id f' = f_task_id f /\
     (forall e, e ∈ evs -> terminal_event e = false)) \/
  (exists task' f' l tl,
     drive w r f tk = finish w r f' task' (l ++ tl) /\
     f_task_id f' = f_task_id f /\
     (forall e, e ∈ l -> terminal_event e = false) /\ ending tl /\
     progress task' <= 100 /\
     (status task' = Completed \/ status task' = Timeout \/
      status task' = Failed) /\
     (status task' = Completed -> progress task' = 100)).
Proof.
  intros Ht Hp. unfold drive. rewrite Ht.
  destruct (loop_body (monitor w) task f tk)
    as [[[[task' f'] evs] [res|]]|e] eqn:Hb.
  - apply loop_body_inv in Hb as (_ & _ & _ & _ & Hid & Hev).
    right. exists (set_progress 100 (set_status Completed task')), f', evs.
    eexists. split; [reflexivity|].
    split; [done|]. split; [done|].
    split; [destruct (on_complete f'); constructor|].
    cbn [progress status set_progress set_status]. split; [lia|].
    split; [by left | done].
  - apply loop_body_inv in Hb as (Htid & Hst & _ & Hlt & Hid & Hev).
    left. exists task', f', evs. repeat split; try done. by apply Hlt.
  - right.
    assert (He : forall s e0,
               ending ((if on_error f then [on_error_call (f_task_id f) e0] else [])
                       ++ [call_raised s])).
    { intros s e0. destruct (on_error f); constructor. }
    destruct e;
      [exists (set_status Failed task) | exists (set_status Failed task)
      | exists (set_status Timeout task) | exists (set_status Failed task)
      | exists (set_status Failed task)];
      exists f, []; eexists; (split; [reflexivity|]);
      (split; [done|]);
      (split; [by intros ? ?%not_elem_of_nil|]);
      (split; [apply He|]);
      cbn [progress status set_status]; (split; [done|]);
      (split; [tauto|discriminate]).
Qed.

Lemma ordered_init (ui tt : Z) : ordered (init ui tt).
Proof.
  split; cbn [init heap next_ref frames trace].
  - intros r _. by rewrite !lookup_empty.
  - intros r f H. by rewrite lookup_empty in H.
  - intros r H. lia.
Qed.

(** A pass of the call that owns [r], from a world in which that call
    counts as polling. *)
Lemma drive_ordered (w : world) (r : ref) (f : frame) (tk : tick) :
  ordered {| heap := heap w; next_ref := next_ref w; monitor := monitor w;
             frames := <[r := f]> (frames w); trace := trace w |} ->
  ordered (drive w r f tk).
Proof.
  intros [Hun Hpo Hov]. cbn [heap next_ref monitor frames trace] in *.
  destruct (Hpo r f) as (Hlt & Hnt & task & Ht & Htid & Hp & Hs);
    [apply lookup_insert_eq|].
  destruct (drive_shape w r f task tk Ht ltac:(lia))
    as [(task' & f' & evs & -> & Htid' & Hst' & Hp' & Hid' & Hev)
       |(task' & f' & l & tl & -> & Hid' & Hl & Htl & Hp' & Hst' & Hc')].
  - split; cbn [heap next_ref monitor frames trace].
    + intros r' Hr'. destruct (Hun r' Hr') as (He & Hf & Hh).
      rewrite events_of_app, events_of_tag, He.
      rewrite decide_False by lia. rewrite !lookup_insert_ne by lia.
      rewrite lookup_insert_ne in Hf by lia. done.
    + intros r' f0 H. rewrite events_of_app, events_of_tag.
      destruct (decide (r = r')) as [<-|Hne].
      * rewrite lookup_insert_eq in H. injection H as <-.
        split; [done|]. split.
        -- intros e He. apply elem_of_app in He as [He|He]; auto.
        -- exists task'. rewrite lookup_insert_eq. repeat split; try done.
           ++ congruence.
           ++ by rewrite Hst'.
      * rewrite lookup_insert_ne in H by done.
        destruct (Hpo r' f0) as (Hlt' & Hnt' & task0 & Ht0 & Hrest).
        { by rewrite lookup_insert_ne. }
        split; [done|]. split; [by rewrite app_nil_r|].
        exists task0. by rewrite lookup_insert_ne.
    + intros r' Hr' H. destruct (decide (r = r')) as [<-|Hne].
      { by rewrite lookup_insert_eq in H. }
      rewrite lookup_insert_ne in H by done.
      rewrite events_of_app, events_of_tag, decide_False, app_nil_r by done.
      destruct (Hov r' Hr') as [He (task0 & Ht0 & Hrest)].
      { by rewrite lookup_insert_ne. }
      split; [done|]. exists task0. by rewrite lookup_insert_ne.
  - split; cbn [finish heap next_ref monitor frames trace].
    + intros r' Hr'. destruct (Hun r' Hr') as (He & Hf & Hh).
      rewrite events_of_app, events_of_tag, He.
      rewrite decide_False by lia. rewrite lookup_insert_ne by lia.
      rewrite lookup_delete_ne by lia.
      rewrite lookup_insert_ne in Hf by lia. done.
    + intros r' f0 H. apply lookup_delete_Some in H as [Hne H].
      destruct (Hpo r' f0) as (Hlt' & Hnt' & task0 & Ht0 & Hrest).
      { by rewrite lookup_insert_ne. }
      rewrite events_of_app, events_of_tag, decide_False, app_nil_r by done.
      split; [done|]. split; [done|].
      exists task0. by rewrite lookup_insert_ne.
    + intros r' Hr' H. rewrite events_of_app, events_of_tag.
      destruct (decide (r = r')) as [<-|Hne].
      * split.
        -- exists (events_of r (trace w) ++ l), tl.
           rewrite app_assoc. split; [done|]. split; [|done].
           intros e He. apply elem_of_app in He as [He|He]; auto.
        -- exists task'. by rewrite lookup_insert_eq.
      * rewrite lookup_delete_ne in H by done.
        destruct (Hov r' Hr') as [He (task0 & Ht0 & Hrest)].
        { by rewrite lookup_insert_ne. }
        rewrite app_nil_r. split; [done|].
        exists task0. by rewrite lookup_insert_ne.
Qed.

Lemma ordered_step (w : world) (o : op) :
  consistent w -> ordered w -> ordered (step w o).
Proof.
  intros [Hreg Hsus Hter] Ho. pose proof Ho as [Hun Hpo Hov].
  destruct o as [task tools limit tid p c e ck tk|r tk|id|utcnow];
    cbn [step].
  - unfold spawn_with_monitoring. apply drive_ordered.
    destruct (Hun (next_ref w) ltac:(lia)) as (He & Hf & Hh).
    split; cbn [heap next_ref monitor frames trace].
    + intros r Hr. destruct (Hun r ltac:(lia)) as (He' & Hf' & Hh').
      rewrite !lookup_insert_ne by lia. done.
    + intros r f0 H. apply lookup_insert_Some in H as [[<- <-]|[Hne H]].
      * split; [lia|]. split; [by rewrite He; intros ? ?%not_elem_of_nil|].
        eexists. rewrite lookup_insert_eq. split; [reflexivity|].
        cbn [task_id progress status f_task_id]. repeat split; try done.
        by left.
      * destruct (Hpo r f0 H) as (Hlt & Hnt & task0 & Ht0 & Hrest).
        split; [lia|]. split; [done|].
        exists task0. rewrite lookup_insert_ne by lia. done.
    + intros r Hr H.
      destruct (decide (r = next_ref w)) as [->|Hne].
      { by rewrite lookup_insert_eq in H. }
      rewrite lookup_insert_ne in H by done.
      destruct (Hov r ltac:(lia) H) as [He' (task0 & Ht0 & Hrest)].
      split; [done|]. exists task0. rewrite lookup_insert_ne by done. done.
  - unfold resume. destruct (frames w !! r) as [f|] eqn:Hf; [|done].
    apply drive_ordered. rewrite insert_id by done. by destruct w.
  - unfold kill_task.
    destruct (active_tasks (monitor w) !! id) as [r|] eqn:Hid; [|done].
    cbn [fst]. destruct (Hreg id r Hid) as (f & Hf & _).
    split; cbn [heap next_ref monitor frames trace].
    + intros r' Hr'. destruct (Hun r' Hr') as (He & Hf' & Hh).
      destruct (Hpo r f Hf) as [Hlt _].
      rewrite lookup_alter_ne by lia. done.
    + intros r' f0 H.
      destruct (Hpo r' f0 H) as (Hlt & Hnt & task0 & Ht0 & Htid & Hp & Hs).
      split; [done|]. split; [done|].
      destruct (decide (r = r')) as [<-|Hne].
      * exists (set_status Killed task0). rewrite lookup_alter_eq, Ht0.
        repeat split; try done. by right.
      * exists task0. by rewrite lookup_alter_ne.
    + intros r' Hr' H.
      destruct (Hov r' Hr' H) as [He (task0 & Ht0 & Hrest)].
      split; [done|]. exists task0.
      rewrite lookup_alter_ne; [done|]. congruence.
  - done.
Qed.

Lemma reachable_ordered (w : world) : reachable w -> ordered w.
Proof.
  induction 1 as [ui tt|w o Hw IH]; [apply ordered_init|].
  apply ordered_step; [by apply reachable_consistent | done].
Qed.

End Runs.

Section Observations.
Import Monitor.
Local Open Scope Z_scope.

(** X14. In every run of a monitor, the events of one call of
    [spawn_with_monitoring] come in this order: calls of [on_progress]
    only, for as long as the call polls; then, once the call is over, at
    most one terminal callback directly followed by the outcome of the
    call, [on_complete] before the return of the very result it was given,
    [on_error] before the exception; nothing follows the outcome.  A call
    that has not begun has no event.  (Callbacks are calls that return:
    a callback that raises is outside the model.) *)
Theorem call_events_in_order :
  forall w : world,
    reachable w ->
    forall r : ref,
      ((next_ref w <= r)%nat -> events_of r (trace w) = []) /\
      (is_Some (frames w !! r) ->
       forall e, e ∈ events_of r (trace w) -> terminal_event e = false) /\
      ((r < next_ref w)%nat -> frames w !! r = None ->
       exists l tl : list event,
         events_of r (trace w) = l ++ tl /\
         (forall e, e ∈ l -> terminal_event e = false) /\
         ending tl).
Proof.
  intros w Hw r. apply reachable_ordered in Hw as [Hun Hpo Hov].
  split; [|split].
  - intros Hr. by destruct (Hun r Hr).
  - intros [f Hf]. by destruct (Hpo r f Hf) as (_ & H & _).
  - intros Hr Hf. by destruct (Hov r Hr Hf).
Qed.

Lemma call_events_in_order_witness :
  let w := run (init 90 900)
             [Spawn "Research" ["web_search"] 300 (Some "t") true true true
                    (clock_at 0) (tick_at 0);
              Resume 0%nat (tick_at 100);
              Resume 0%nat (tick_at 150)] in
  exists l tl : list event,
    events_of 0%nat (trace w) = l ++ tl /\
    (forall e, e ∈ l -> terminal_event e = false) /\
    ending tl.
Proof.
  intros w.
  assert (Hr : reachable w) by (do 3 apply reachable_step; apply reachable_init).
  destruct (call_events_in_order w Hr 0%nat) as (_ & _ & H).
  apply H; [vm_compute; lia | vm_compute; reflexivity].
Defined.





(** The ids of the dicts built from a list of registry entries. *)
Lemma listed_ids (w : world) (utcnow : nat -> datetime)
    (l : list (string * ref)) (k : nat) :
  (forall id r, (id, r) ∈ l ->
     exists task, heap w !! r = Some task /\ task_id task = id) ->
  snap_task_id <$>
    omap (fun '(i, r) => snapshot_of (utcnow i) <$> heap w !! r)
         (imap (fun i r => (k + i, r)%nat) (l.*2)) = l.*1.
Proof.
  revert k. induction l as [|[id r] l IH]; intros k H; [reflexivity|].
  destruct (H id r ltac:(left)) as (task & Ht & Htid).
  rewrite !fmap_cons. cbn [fst snd imap].
  cbn [omap list_omap]. rewrite Ht. cbn [fmap option_fmap option_map].
  rewrite fmap_cons. cbn [snapshot_of snap_task_id]. rewrite Htid. f_equal.
  rewrite <- (IH (S k)).
  - f_equal. f_equal. apply imap_ext. intros i x _. cbn. f_equal. lia.
  - intros id' r' Hin. apply H. by right.
Qed.

(** X17. In every run of a monitor, [list_active_tasks] returns one dict
    for each key of the registry, carrying that key as its task id: no id
    is listed twice. *)
Theorem list_active_tasks_ids :
  forall w : world,
    reachable w ->
    forall utcnow : nat -> datetime,
      snap_task_id <$> list_active_tasks w utcnow =
        (map_to_list (active_tasks (monitor w))).*1 /\
      NoDup (snap_task_id <$> list_active_tasks w utcnow) /\
      length (list_active_tasks w utcnow) = size (active_tasks (monitor w)).
Proof.
  intros w Hw utcnow.
  pose proof (reachable_consistent w Hw) as [Hreg _ _].
  apply reachable_ordered in Hw as [_ Hpo _].
  assert (H : snap_task_id <$> list_active_tasks w utcnow =
              (map_to_list (active_tasks (monitor w))).*1).
  { unfold list_active_tasks, active_refs.
    rewrite <- (listed_ids w utcnow (map_to_list (active_tasks (monitor w))) 0).
    - reflexivity.
    - intros id r Hin. apply elem_of_map_to_list in Hin.
      destruct (Hreg id r Hin) as (f & Hf & Hfid).
      destruct (Hpo r f Hf) as (_ & _ & task & Ht & Htid & _).
      exists task. split; [done|congruence]. }
  split; [done|]. split.
  - rewrite H. apply NoDup_fst_map_to_list.
  - rewrite <- (length_fmap snap_task_id), H, length_fmap.
    apply length_map_to_list.
Qed.

Lemma list_active_tasks_ids_witness :
  let w := run (init 90 900)
             [Spawn "Research" ["web_search"] 300 (Some "a") true true true
                    (clock_at 0) (tick_at 0);
              Spawn "Report" [] 300 (Some "b") false false false
                    (clock_at 1) (tick_at 1)] in
  length (list_active_tasks w (fun _ => 2000000)) = 2%nat.
Proof.
  intros w.
  assert (Hr : reachable w) by (do 2 apply reachable_step; apply reachable_init).
  destruct (list_active_tasks_ids w Hr (fun _ => 2000000)) as (_ & _ & H).
  rewrite H. vm_compute. reflexivity.
Defined.

End Observations.

(** ** The monitor: the registry when calls begin and end *)

Section RegistryEdges.
Import Monitor.
Local Open Scope Z_scope.

(** X18. When a pass ends a call, the task id of the call is no longer a
    key of the registry: [check_task] returns [None] and [kill_task]
    [False] for it.  The entry is deleted whatever it held, also when a
    later spawn with the same id had put another task there; every other
    call stays suspended and every other task object as it was. *)
Theorem call_end_frees_id :
  forall (w : world) (r : ref) (f : frame) (tk : tick),
    frames w !! r = Some f ->
    frames (step w (Resume r tk)) !! r = None ->
    let w' := step w (Resume r tk) in
    active_tasks (monitor w') !! f_task_id f = None /\
    (forall utcnow, check_task w' (f_task_id f) utcnow = None) /\
    kill_task w' (f_task_id f) = (w', false) /\
    (forall r' : ref, r' <> r ->
       frames w' !! r' = frames w !! r' /\ heap w' !! r' = heap w !! r').
Proof.
  intros w r f tk Hf Hend w'. subst w'. revert Hend. cbn [step].
  unfold resume. rewrite Hf. unfold drive.
  destruct (heap w !! r) as [task|]; [|congruence].
  assert (Hfin : forall f' task' evs,
            f_task_id f' = f_task_id f ->
            let w' := finish w r f' task' evs in
            active_tasks (monitor w') !! f_task_id f = None /\
            (forall utcnow, check_task w' (f_task_id f) utcnow = None) /\
            kill_task w' (f_task_id f) = (w', false) /\
            (forall r' : ref, r' <> r ->
               frames w' !! r' = frames w !! r' /\ heap w' !! r' = heap w !! r')).
  { intros f' task' evs Hid w'.
    assert (Hn : active_tasks (monitor w') !! f_task_id f = None).
    { subst w'. unfold finish. cbn [monitor active_tasks set_active_tasks].
      rewrite Hid. apply lookup_delete_eq. }
    split; [done|]. unfold check_task, kill_task. rewrite Hn.
    split; [done|]. split; [done|].
    intros r' Hne. subst w'. unfold finish. cbn [frames heap].
    by rewrite lookup_delete_ne, lookup_insert_ne. }
  destruct (loop_body (monitor w) task f tk)
    as [[[[task' f'] evs] [res|]]|e] eqn:Hb.
  - intros _. apply Hfin. by apply loop_body_inv in Hb as (_ & _ & _ & _ & ? & _).
  - cbn [frames]. rewrite lookup_insert_eq. discriminate.
  - intros _. destruct e; by apply Hfin.
Qed.

Lemma call_end_frees_id_witness :
  let w := run (init 90 900)
             [Spawn "First" [] 1 (Some "t") false false false
                    (clock_at 0) (tick_at 0);
              Spawn "Second" [] 300 (Some "t") false false false
                    (clock_at 1) (tick_at 1)] in
  let w' := step w (Resume 0%nat (tick_at 5)) in
  active_tasks (monitor w) !! "t" = Some 1%nat /\
  active_tasks (monitor w') !! "t" = None /\
  is_Some (frames w' !! 1%nat).
Proof.
  intros w w'.
  destruct (call_end_frees_id w 0%nat
              {| f_task_id := "t"; f_timeout := 1; on_progress := false;
                 on_complete := false; on_error := false;
                 f_start_time := 0; f_last_update := 0 |}
              (tick_at 5)) as (H1 & _ & _ & H2);
    [vm_compute; reflexivity | vm_compute; reflexivity |].
  split; [vm_compute; reflexivity|]. split; [exact H1|].
  destruct (H2 1%nat ltac:(lia)) as [H3 _]. fold w' in H3. rewrite H3.
  vm_compute. eauto.
Defined.

(** X19. A task spawned with a timeout of 0 never polls.  If the clock has
    not advanced between the start of the loop and its first reading, the
    division by the timeout raises [ZeroDivisionError]: the status becomes
    ["failed"], [on_error] (when given) is called with that error and the
    call raises [SubagentError].  If the clock has advanced, the call
    ends with the status ["timeout"].  Either way the id is not in the
    registry afterwards. *)
Theorem zero_timeout_never_polls :
  forall (w : world) (task : string) (tools : list string)
         (tid : option string) (on_progress on_complete on_error : bool)
         (ck : spawn_clock) (tk : tick),
    let w' := step w (Spawn task tools 0 tid
                            on_progress on_complete on_error ck tk) in
    let r := next_ref w in
    let id := task_id_or tid (time_id ck) in
    frames w' !! r = None /\
    active_tasks (monitor w') !! id = None /\
    ((time_elapsed tk - time_start ck <= 0)%Q ->
     (status <$> heap w' !! r) = Some Failed /\
     trace w' =
       trace w
       ++ (if on_error then [(r, on_error_call id ZeroDivisionError)] else [])
       ++ [(r, call_raised SubagentError)]) /\
    ((0 < time_elapsed tk - time_start ck)%Q ->
     (status <$> heap w' !! r) = Some Timeout /\
     trace w' =
       trace w
       ++ (if on_error then [(r, on_error_call id TimeoutError)] else [])
       ++ [(r, call_raised TimeoutError)]).
Proof.
  intros w task tools tid on_progress on_complete on_error ck tk w' r id.
  subst w'. cbn [step]. unfold spawn_with_monitoring, drive.
  cbn [heap monitor]. rewrite lookup_insert_eq, loop_body_eq. cbv zeta.
  cbn [timeout f_start_time f_task_id Monitor.on_error].
  change (Qeq_bool (inject_Z 0) 0) with true.
  destruct (Qle_bool (time_elapsed tk - time_start ck) (inject_Z 0)) eqn:E;
    cbn [negb]; unfold finish;
    cbn [heap frames trace monitor active_tasks set_active_tasks f_task_id];
    rewrite lookup_insert_eq, !lookup_delete_eq, tag_app;
    (split; [done|]); (split; [done|]).
  - apply Qle_bool_iff in E. split.
    + intros _. by destruct on_error.
    + intros H. apply Qlt_not_le in H. contradiction.
  - split.
    + intros H. apply Qle_bool_iff in H. change (inject_Z 0) with 0%Q in E.
      congruence.
    + intros _. by destruct on_error.
Qed.

Lemma zero_timeout_never_polls_witness :
  let w' := step (init 90 900)
              (Spawn "Research" [] 0 (Some "t") true true true
                     (clock_at 7) (tick_at 7)) in
  (status <$> heap w' !! 0%nat) = Some Failed /\
  trace w' = [(0%nat, on_error_call "t" ZeroDivisionError);
              (0%nat, call_raised SubagentError)].
Proof.
  intros w'.
  destruct (zero_timeout_never_polls (init 90 900) "Research" [] (Some "t")
              true true true (clock_at 7) (tick_at 7)) as (_ & _ & H & _).
  apply H. vm_compute. discriminate.
Defined.



End RegistryEdges.

(** ** The monitor: what [kill_task] does not change *)

Section KillUnseen.
Import Monitor.
Local Open Scope Z_scope.

Lemma same_but_status_refl (w : world) : same_but_status w w.
Proof. by repeat split. Qed.

(** The loop body does not look at the status. *)
Lemma loop_body_status (self : t) (t1 t2 : SubagentTask) (f : frame)
    (tk : tick) :
  set_status Running t1 = set_status Running t2 ->
  match loop_body self t1 f tk, loop_body self t2 f tk with
  | Return (t1', f1, evs1, res1), Return (t2', f2, evs2, res2) =>
      set_status Running t1' = set_status Running t2' /\
      f1 = f2 /\ evs1 = evs2 /\ res1 = res2
  | Raise e1, Raise e2 => e1 = e2
  | _, _ => False
  end.
Proof.
  intros H. destruct t1, t2. injection H as -> -> -> -> -> -> -> -> ->.
  rewrite !loop_body_eq. cbv zeta. cbn [timeout task_id].
  destruct (negb _); [reflexivity|].
  destruct (Qeq_bool _ 0); [reflexivity|]. by repeat split.
Qed.

Lemma same_but_status_insert (h1 h2 : gmap ref SubagentTask) (r : ref)
    (t1 t2 : SubagentTask) :
  (forall r', set_status Running <$> h1 !! r' = set_status Running <$> h2 !! r') ->
  set_status Running t1 = set_status Running t2 ->
  forall r', set_status Running <$> <[r := t1]> h1 !! r' =
             set_status Running <$> <[r := t2]> h2 !! r'.
Proof.
  intros Hh Ht r'. destruct (decide (r = r')) as [<-|Hne].
  - rewrite !lookup_insert_eq. cbn. by rewrite Ht.
  - by rewrite !lookup_insert_ne.
Qed.

Lemma set_status_same (s : Status) (t1 t2 : SubagentTask) :
  set_status Running t1 = set_status Running t2 ->
  set_status Running (set_status s t1) = set_status Running (set_status s t2).
Proof. destruct t1, t2. by intros [= -> -> -> -> -> -> -> -> ->]. Qed.

Lemma set_progress_same (p : Z) (t1 t2 : SubagentTask) :
  set_status Running t1 = set_status Running t2 ->
  set_status Running (set_progress p t1) =
  set_status Running (set_progress p t2).
Proof. destruct t1, t2. by intros [= -> -> -> -> -> -> -> -> ->]. Qed.

Lemma finish_same_but_status (w1 w2 : world) (r : ref) (f : frame)
    (t1 t2 : SubagentTask) (evs : list event) :
  same_but_status w1 w2 ->
  set_status Running t1 = set_status Running t2 ->
  same_but_status (finish w1 r f t1 evs) (finish w2 r f t2 evs).
Proof.
  intros (Htr & Hfr & Hmo & Hnx & Hh) Ht. unfold finish, same_but_status.
  cbn [trace frames monitor next_ref heap].
  rewrite Htr, Hfr, Hmo, Hnx.
  split; [done|]. split; [done|]. split; [done|]. split; [done|].
  by apply same_but_status_insert.
Qed.

Lemma drive_same_but_status (w1 w2 : world) (r : ref) (f : frame) (tk : tick) :
  same_but_status w1 w2 ->
  same_but_status (drive w1 r f tk) (drive w2 r f tk).
Proof.
  intros H. pose proof H as (Htr & Hfr & Hmo & Hnx & Hh). unfold drive.
  pose proof (Hh r) as Hr.
  destruct (heap w1 !! r) as [t1|], (heap w2 !! r) as [t2|];
    try discriminate; [|done].
  cbn in Hr. apply (inj Some) in Hr.
  pose proof (loop_body_status (monitor w1) t1 t2 f tk Hr) as Hb.
  rewrite <- Hmo.
  destruct (loop_body (monitor w1) t1 f tk) as [[[[t1' f1] evs1] res1]|e1],
           (loop_body (monitor w1) t2 f tk) as [[[[t2' f2] evs2] res2]|e2];
    try done.
  - destruct Hb as (Ht' & -> & -> & ->).
    destruct res2 as [res|].
    + apply finish_same_but_status; [done|].
      by apply set_progress_same, set_status_same.
    + unfold same_but_status. cbn [trace frames monitor next_ref heap].
      rewrite Htr, Hfr, Hnx.
      split; [done|]. split; [done|]. split; [done|]. split; [done|].
      by apply same_but_status_insert.
  - subst e2.
    destruct e1; apply finish_same_but_status; try done;
      by apply set_status_same.
Qed.

Lemma step_same_but_status (w1 w2 : world) (o : op) :
  same_but_status w1 w2 -> same_but_status (step w1 o) (step w2 o).
Proof.
  intros H. pose proof H as (Htr & Hfr & Hmo & Hnx & Hh).
  destruct o as [task tools limit tid p c e ck tk|r tk|id|utcnow]; cbn [step].
  - unfold spawn_with_monitoring. rewrite Hnx. apply drive_same_but_status.
    unfold same_but_status. cbn [trace frames monitor next_ref heap].
    rewrite Htr, Hfr, Hmo. repeat split.
    by apply same_but_status_insert.
  - unfold resume. rewrite Hfr. destruct (frames w2 !! r); [|done].
    by apply drive_same_but_status.
  - unfold kill_task. rewrite Hmo.
    destruct (active_tasks (monitor w2) !! id) as [r|]; [|done].
    cbn [fst]. unfold same_but_status. cbn [trace frames monitor next_ref heap].
    repeat split; try done.
    intros r'. rewrite !lookup_alter.
    destruct (decide (r = r')) as [<-|]; [|apply Hh].
    specialize (Hh r).
    destruct (heap w1 !! r) as [t1|], (heap w2 !! r) as [t2|];
      try discriminate; [|done].
    cbn in *. apply (inj Some) in Hh. f_equal. by apply set_status_same.
  - done.
Qed.

Lemma kill_task_same_but_status (w : world) (id : string) :
  same_but_status (kill_task w id).1 w.
Proof.
  unfold kill_task.
  destruct (active_tasks (monitor w) !! id) as [r|];
    [|apply same_but_status_refl].
  cbn [fst]. unfold same_but_status. cbn [trace frames monitor next_ref heap].
  split; [done|]. split; [done|]. split; [done|]. split; [done|].
  intros r'. rewrite lookup_alter.
  destruct (decide (r = r')) as [<-|]; [|done].
  by destruct (heap w !! r).
Qed.

(** X21. [kill_task] changes status fields and nothing else, also in what
    follows: after the same operations, a world in which a task was
    killed and the world in which it was not have the same events (so the
    same callbacks were called with the same arguments and the calls ended
    the same way), the same calls still polling, the same registry, and
    task objects that agree in every field but [status]. *)
Theorem kill_task_changes_status_only :
  forall (w : world) (id : string) (ops : list op),
    same_but_status (run (kill_task w id).1 ops) (run w ops).
Proof.
  intros w id ops. pose proof (kill_task_same_but_status w id) as H.
  remember (kill_task w id).1 as w1 eqn:E. clear E. revert w1 w H.
  induction ops as [|o ops IH]; intros w1 w2 H; [done|].
  apply (IH (step w1 o) (step w2 o)). by apply step_same_but_status.
Qed.

End KillUnseen.

(** ** The progress bar as Python computes it *)

Section BarInBinary64.
Import ProgressBar Binary64.
Local Open Scope Z_scope.

(** X22. Computed in binary64 as Python does, the number of filled cells
    of [ProgressBar(p, w).render()] is, at every width up to 200 and for
    every percentage, between 0 and [w], so that the bar has [w] cells; it
    is the count of the exact arithmetic or one cell less, and it is the
    exact count at every width below 50, the default width 10 among
    them. *)
Theorem render_cells_in_binary64 :
  forall p w : Z,
    0 <= w <= 200 ->
    let c := percentage (__init__ p w) in
    0 <= filled c w <= w /\
    length (str_mul glyph_filled (filled c w)
            ++ str_mul glyph_empty (w - filled c w)) = Z.to_nat w /\
    filled_exact c w - 1 <= filled c w <= filled_exact c w /\
    (w < 50 -> filled c w = filled_exact c w).
Proof.
  intros p w Hw c. subst c. cbn [percentage __init__].
  set (c := Z.max 0 (Z.min 100 p)).
  assert (Hc : 0 <= c <= 100) by (subst c; lia).
  assert (H : checked_below in_bar 201 = true) by (vm_compute; reflexivity).
  pose proof (checked_below_spec _ _ H (Z.to_nat c) (Z.to_nat w)
                ltac:(lia) ltac:(lia)) as H'.
  unfold in_bar in H'. rewrite !Z2Nat.id in H' by lia. cbv zeta in H'.
  apply andb_true_iff in H' as [H1 H2]. apply Z.leb_le in H1, H2.
  split; [lia|]. split.
  - unfold str_mul. rewrite length_app, !length_replicate. lia.
  - split; [apply filled_binary64_within_one; lia|].
    intros Hlt. apply filled_binary64_exact_below_50. lia.
Qed.

Lemma render_cells_in_binary64_witness :
  filled 58 50 = filled_exact 58 50 - 1 /\
  0 <= filled 58 50 <= 50.
Proof.
  destruct (render_cells_in_binary64 58 50 ltac:(lia)) as (H & _ & _ & _).
  split; [vm_compute; reflexivity | exact H].
Defined.

End BarInBinary64.
